(** * Crypto-strategy-hub API: a shallow embedding of [src/index.js]

    The server keeps one array of portfolio records in memory, mirrors it to
    [db.json] after every mutation, and proxies prediction requests.  The
    development below embeds

    - the JSON values the handlers receive, keep and send back, numbers
      being doubles: what [JSON.parse] reads is rounded to the nearest
      double, and a double is written as Number::toString writes it;
    - [JSON.stringify (v, null, 2)] and [JSON.parse] on the text of [db.json];
    - [loadPortfolios], [savePortfolios] and the route handlers, as functions
      from the state before a request to the state after it and the reply;
    - [fetchHistoricalData], with the product [item.time * 1000] of doubles
      and the UTC calendar arithmetic behind [Date.prototype.toISOString].

    Every [await] of the source is an interaction with the outside world (the
    file system, the two upstream services); its outcome is an explicit
    argument of the model. *)

From Stdlib Require Import List String Ascii Bool Arith ZArith Lia.
Import ListNotations.

Set Warnings "-register-all".

Local Open Scope string_scope.
Local Open Scope list_scope.
Local Open Scope nat_scope.

(** ** JSON values *)

(** A number is a double.  A finite one is kept as the decimal numeral that
    [Number::toString] gives it, written out in full: sign, integer digits and
    fraction digits, so that [1e21] has the integer digits
    [1000000000000000000000] and [2.5e-7] the fraction digits [00000025].
    [Infinity] is what a JSON text beyond the range of the doubles is read as.
    The two zeros are one value here: no operation of the program tells them
    apart.  [NaN] is no value of a request body, a record or a response; as the
    result of a conversion it is [None] (see [ToNumber] below). *)
Inductive number : Type :=
| mkNum (neg : bool) (ipart fpart : string)
| Infinity (neg : bool).

(** The values [JSON.parse] produces, which are the values a request body, a
    stored record and the body of an upstream response can be; and the one
    other value a record can come to hold: a built-in function, which the
    [PATCH] handler reads from the prototype of a body that is an array. *)
Inductive json : Type :=
| JNull
| JBool (b : bool)
| JNum (n : number)
| JStr (s : string)
| JArr (items : list json)
| JObj (props : list (string * json))
| JFun (name : string).

Section JsonInduction.

Variable P : json -> Prop.
Hypothesis HNull : P JNull.
Hypothesis HBool : forall b, P (JBool b).
Hypothesis HNum : forall n, P (JNum n).
Hypothesis HStr : forall s, P (JStr s).
Hypothesis HArr : forall items, Forall P items -> P (JArr items).
Hypothesis HObj : forall props, Forall (fun kv => P (snd kv)) props -> P (JObj props).
Hypothesis HFun : forall name, P (JFun name).


End JsonInduction.

(** An object is its list of own properties in insertion order (the rule that
    puts integer-like keys first is not modelled). *)
Definition obj : Type := list (string * json).

(** Exceptions a handler can meet: a property read on [null] or [undefined]
    or a call of something that is no function, an invalid date, a rejected
    file-system call and a rejected HTTP call. *)
Inductive js_error : Type :=
| TypeError
| RangeError
| IOError (code : string)
| HttpError (code : string).

Inductive res (A : Type) : Type :=
| Ok (a : A)
| Throw (e : js_error).
Arguments Ok {A} a.
Arguments Throw {A} e.

Definition bind {A B : Type} (m : res A) (k : A -> res B) : res B :=
  match m with
  | Ok a => k a
  | Throw e => Throw e
  end.

Notation "x <- m ;; k" := (bind m (fun x => k))
  (at level 61, m at next level, right associativity).

(** *** Properties of objects *)

(** [o[k]] on an object: the own property, [None] for [undefined]. *)
Fixpoint lookup (k : string) (o : obj) : option json :=
  match o with
  | [] => None
  | (k', v) :: rest => if String.eqb k k' then Some v else lookup k rest
  end.

(** [o[k] = v]: an existing key keeps its place, a new key goes last. *)
Fixpoint set_prop (k : string) (v : json) (o : obj) : obj :=
  match o with
  | [] => [(k, v)]
  | (k', v') :: rest =>
      if String.eqb k k' then (k, v) :: rest else (k', v') :: set_prop k v rest
  end.

(** [{...a, ...b}]: copy the own properties of [a], then assign those of [b]
    in order. *)
Definition spread (a b : obj) : obj :=
  fold_left (fun acc kv => set_prop (fst kv) (snd kv) acc) b a.

Definition keys (o : obj) : list string := map fst o.

(** [v.k] for the keys the program reads with a dot ([id], [portfolios],
    [historical_data], [Data], [time], [close]): none is an array index and
    none is inherited from a built-in prototype, so on an object the result is
    the own property.  Reading a property of [null] throws; arrays, strings,
    numbers, booleans and functions have no such property. *)
Definition get_prop (v : json) (k : string) : res (option json) :=
  match v with
  | JNull => Throw TypeError
  | JObj o => Ok (lookup k o)
  | _ => Ok None
  end.

(** The same read on a value that may be [undefined]. *)
Definition get_prop_opt (v : option json) (k : string) : res (option json) :=
  match v with
  | None => Throw TypeError
  | Some v => get_prop v k
  end.

Definition all_zero (s : string) : bool :=
  forallb (fun c => Ascii.eqb c "0"%char) (list_ascii_of_string s).

Definition is_zero (n : number) : bool :=
  match n with
  | mkNum _ i f => all_zero i && all_zero f
  | Infinity _ => false
  end.

(** ToBoolean. *)
Definition truthy (v : json) : bool :=
  match v with
  | JNull => false
  | JBool b => b
  | JNum n => negb (is_zero n)
  | JStr s => negb (String.eqb s "")
  | JArr _ => true
  | JObj _ => true
  | JFun _ => true
  end.

(** ** Numbers as doubles *)

Definition text : Type := list ascii.

Definition txt (s : string) : text := list_ascii_of_string s.

(** The number a string of decimal digits stands for. *)
Definition Z_of_digits (d : text) : Z :=
  fold_left (fun acc c => 10 * acc + (Z.of_N (N_of_ascii c) - 48))%Z d 0%Z.

(** The last decimal digit of [n]. *)
Definition digit (n : Z) : ascii := ascii_of_N (Z.to_N (48 + n mod 10)).

Fixpoint dec_digits (fuel : nat) (n : Z) (acc : text) : text :=
  match fuel with
  | O => acc
  | S fuel' =>
      if (n <? 10)%Z then digit n :: acc
      else dec_digits fuel' (n / 10)%Z (digit n :: acc)
  end.

(** The decimal digits of a natural number. *)
Definition dec_text (n : Z) : text := dec_digits (S (Z.to_nat (Z.log2 n))) n [].

Fixpoint skip_zeros (d : text) : text :=
  match d with
  | c :: r => if Ascii.eqb c "0"%char then skip_zeros r else d
  | [] => []
  end.

Definition drop_trailing_zeros (d : text) : text :=
  rev ((fix go (r : text) : text :=
          match r with
          | c :: r' => if Ascii.eqb c "0"%char then go r' else r
          | [] => []
          end) (rev d)).

(** Binary64 arithmetic on the magnitudes: a finite double is [m * 2 ^ e]
    with [m < 2 ^ 53], and with [2 ^ 52 <= m] unless [e = -1074]. *)
Module Binary64.
Local Open Scope Z_scope.

(** The quotient [p / q] rounded to the nearest integer, a tie going to the
    even one. *)
Definition nearest_even (p q : Z) : Z :=
  let f := p / q in
  let r := p mod q in
  if 2 * r <? q then f
  else if q <? 2 * r then f + 1
  else if Z.even f then f else f + 1.

(** [p / (q * 2 ^ e)] as a fraction of integers. *)
Definition scale2 (p q e : Z) : Z * Z :=
  if 0 <=? e then (p, q * 2 ^ e) else (p * 2 ^ (- e), q).

(** [s * 10 ^ x] as a fraction of integers. *)
Definition decimal (s x : Z) : Z * Z :=
  if 0 <=? x then (s * 10 ^ x, 1) else (s, 10 ^ (- x)).

(** The [l] with [2 ^ l <= p / q < 2 ^ (l + 1)]. *)
Definition floor_log2 (p q : Z) : Z :=
  let g := Z.log2 p - Z.log2 q in
  let (a, b) := scale2 p q g in
  if b <=? a then g else g - 1.

(** The double nearest to [p / q], a tie going to the even significand;
    [None] is the overflow to infinity. *)
Definition round (p q : Z) : option (Z * Z) :=
  if p =? 0 then Some (0, -1074)
  else
    let e := Z.max (floor_log2 p q - 52) (-1074) in
    let (a, b) := scale2 p q e in
    let m := nearest_even a b in
    let (m', e') := if m =? 2 ^ 53 then (2 ^ 52, e + 1) else (m, e) in
    if 971 <? e' then None else Some (m', e').

(** The value of a double as a fraction of integers. *)
Definition fraction (d : Z * Z) : Z * Z :=
  let (m, e) := d in if 0 <=? e then (m * 2 ^ e, 1) else (m, 2 ^ (- e)).

(** [10 ^ j <= p / q]. *)
Definition pow10_le (j p q : Z) : bool :=
  let (a, b) := decimal 1 j in a * q <=? p * b.

Fixpoint search_position (fuel : nat) (n p q : Z) : Z :=
  match fuel with
  | O => n
  | S fuel' => if pow10_le n p q then search_position fuel' (n + 1) p q else n
  end.

(** The [n] with [10 ^ (n - 1) <= p / q < 10 ^ n]: an estimate from the
    binary logarithm, checked, and a search from below when it fails. *)
Definition position (p q : Z) : Z :=
  let n := floor_log2 p q * 30103 / 100000 + 1 in
  if pow10_le (n - 1) p q && negb (pow10_le n p q) then n
  else if pow10_le n p q && negb (pow10_le (n + 1) p q) then n + 1
  else search_position 800 (-400) p q.

Definition same (a : option (Z * Z)) (d : Z * Z) : bool :=
  match a with
  | Some (m, e) => (m =? fst d) && (e =? snd d)
  | None => false
  end.

(** [s * 10 ^ x] rounds to the double [d]. *)
Definition reads_as (s x : Z) (d : Z * Z) : bool :=
  let (p, q) := decimal s x in same (round p q) d.

(** Number::toString, steps 5: the digits [s] and the exponent [x] of the
    decimal [s * 10 ^ x] with the fewest digits that rounds to the double
    [d], and among those of that length the one closest to [d].  [k] is the
    number of digits tried, [n] the position of the decimal point; seventeen
    digits always tell a double from its neighbours. *)
Fixpoint shortest_from (fuel : nat) (k : Z) (d : Z * Z) (n : Z) : Z * Z :=
  let (p, q) := fraction d in
  let x := n - k in
  let (t, u) := decimal 1 (- x) in
  let lo := (p * t) / (q * u) in
  let near := nearest_even (p * t) (q * u) in
  let far := lo + (lo + 1) - near in
  match fuel with
  | O => (near, x)
  | S fuel' =>
      if reads_as near x d then (near, x)
      else if reads_as far x d then (far, x)
      else shortest_from fuel' (k + 1) d n
  end.

Definition shortest (d : Z * Z) : Z * Z :=
  let (p, q) := fraction d in
  shortest_from 16 1 d (position p q).

End Binary64.

Definition zero : number := mkNum false "0" "".

(** The numeral of [s * 10 ^ x] for [s > 0]. *)
Definition numeral (sg : bool) (s x : Z) : number :=
  let d := dec_text s in
  if (0 <=? x)%Z then
    mkNum sg (string_of_list_ascii (d ++ repeat "0"%char (Z.to_nat x))) ""
  else
    let len := List.length d in
    let r := Z.to_nat (- x) in
    if r <? len then
      mkNum sg (string_of_list_ascii (firstn (len - r) d))
        (string_of_list_ascii (drop_trailing_zeros (skipn (len - r) d)))
    else
      mkNum sg "0"
        (string_of_list_ascii (drop_trailing_zeros (repeat "0"%char (r - len) ++ d))).

(** StringToNumber on a decimal literal: the number value of the decimal
    with the digits [d], the exponent [x] and the sign [sg].  A decimal
    beyond [1e400] is infinite and one below [1e-400] is zero whatever its
    digits; between the two it is rounded to the nearest double. *)
Definition number_of_decimal (sg : bool) (d : text) (x : Z) : number :=
  let s := Z_of_digits d in
  if (s =? 0)%Z then zero
  else
    let mag := (Z.of_nat (List.length (skip_zeros d)) + x)%Z in
    if (400 <? mag)%Z then Infinity sg
    else if (mag <? -400)%Z then zero
    else
      let (p, q) := Binary64.decimal s x in
      match Binary64.round p q with
      | None => Infinity sg
      | Some (m, e) =>
          if (m =? 0)%Z then zero
          else let (s', x') := Binary64.shortest (m, e) in numeral sg s' x'
      end.

(** ** The text of [db.json] *)

Definition LF : ascii := ascii_of_nat 10.
Definition DQ : ascii := ascii_of_nat 34.
Definition BS : ascii := ascii_of_nat 92.

Definition hex_digit (n : nat) : ascii :=
  if n <? 10 then ascii_of_nat (48 + n) else ascii_of_nat (87 + n).

(** QuoteJSONString, one character. *)
Definition quote_char (c : ascii) : text :=
  let n := nat_of_ascii c in
  if n =? 34 then [BS; DQ]
  else if n =? 92 then txt "\\"
  else if n =? 8 then txt "\b"
  else if n =? 9 then txt "\t"
  else if n =? 10 then txt "\n"
  else if n =? 12 then txt "\f"
  else if n =? 13 then txt "\r"
  else if n <? 32 then txt "\u00" ++ [hex_digit (n / 16); hex_digit (n mod 16)]
  else [c].

Definition quote (s : string) : text :=
  DQ :: flat_map quote_char (list_ascii_of_string s) ++ [DQ].

(** The position of the decimal point of a numeral: the [n] of
    Number::toString, with [10 ^ (n - 1) <= value < 10 ^ n]. *)
Definition magnitude (i f : string) : Z :=
  if all_zero i then (- Z.of_nat (List.length (txt f) - List.length (skip_zeros (txt f))))%Z
  else Z.of_nat (List.length (txt i)).

(** The digits of a numeral from its first to its last that is not zero. *)
Definition significant (i f : string) : text :=
  drop_trailing_zeros (skip_zeros (txt i ++ txt f)).

(** The exponent form of Number::toString: one digit, the others after a
    point, and the exponent [n - 1] with its sign. *)
Definition exponent_text (i f : string) : text :=
  let e := (magnitude i f - 1)%Z in
  match significant i f with
  | [] => txt "0"
  | d :: rest =>
      d :: (match rest with [] => [] | _ :: _ => "."%char :: rest end)
      ++ "e"%char :: (if (e <? 0)%Z then "-"%char else "+"%char) :: dec_text (Z.abs e)
  end.

(** The text of a number in JSON: Number::toString, which writes a magnitude
    within [1e-6 .. 1e21) in full and the others in exponent form; what is
    not finite is written [null]. *)
Definition number_text (n : number) : text :=
  match n with
  | Infinity _ => txt "null"
  | mkNum sg i f =>
      (if sg then txt "-" else [])
      ++ (if ((-6 <? magnitude i f) && (magnitude i f <=? 21))%Z then
            txt i ++ (if String.eqb f "" then [] else txt "." ++ txt f)
          else exponent_text i f)
  end.

(** A line break followed by the indentation of nesting level [lvl] (the gap
    is two spaces). *)
Definition newline (lvl : nat) : text := LF :: repeat " "%char (2 * lvl).

Fixpoint join (sep : text) (parts : list text) : text :=
  match parts with
  | [] => []
  | [p] => p
  | p :: rest => p ++ sep ++ join sep rest
  end.

Definition is_function (v : json) : bool :=
  match v with
  | JFun _ => true
  | _ => false
  end.

(** SerializeJSONProperty with a gap of two spaces, at nesting level [lvl].
    A function has no text: as an item of an array it is written [null], and
    an object leaves out a property that holds one. *)
Fixpoint serialize (lvl : nat) (v : json) : text :=
  match v with
  | JNull => txt "null"
  | JBool true => txt "true"
  | JBool false => txt "false"
  | JNum n => number_text n
  | JStr s => quote s
  | JArr [] => txt "[]"
  | JArr items =>
      txt "[" ++ newline (S lvl)
      ++ join (txt "," ++ newline (S lvl)) (map (serialize (S lvl)) items)
      ++ newline lvl ++ txt "]"
  | JObj props =>
      match
        flat_map (fun kv =>
                    if is_function (snd kv) then []
                    else [quote (fst kv) ++ txt ": " ++ serialize (S lvl) (snd kv)]) props
      with
      | [] => txt "{}"
      | members =>
          txt "{" ++ newline (S lvl)
          ++ join (txt "," ++ newline (S lvl)) members
          ++ newline lvl ++ txt "}"
      end
  | JFun _ => txt "null"
  end.

(** [JSON.stringify (v, null, 2)]. *)
Definition JSON_stringify (v : json) : text := serialize 0 v.

(** ** [JSON.parse] *)

(** Outcome of a parsing function: the value read and the text after it, a
    syntax error, or a recursion budget that ran out ([JSON_parse] below gives
    a budget that never does). *)
Inductive presult (A : Type) : Type :=
| POk (a : A) (rest : text)
| PErr
| PFuel.
Arguments POk {A} a rest.
Arguments PErr {A}.
Arguments PFuel {A}.

Definition is_ws (c : ascii) : bool :=
  let n := nat_of_ascii c in
  (n =? 32) || (n =? 9) || (n =? 10) || (n =? 13).

Fixpoint skip_ws (s : text) : text :=
  match s with
  | c :: r => if is_ws c then skip_ws r else s
  | [] => []
  end.

Definition is_digit (c : ascii) : bool :=
  let n := nat_of_ascii c in (48 <=? n) && (n <=? 57).

Fixpoint span_digits (s : text) : text * text :=
  match s with
  | c :: r =>
      if is_digit c then let (d, r') := span_digits r in (c :: d, r') else ([], s)
  | [] => ([], [])
  end.

(** [strip p s] removes the prefix [p] from [s]. *)
Fixpoint strip (p s : text) : option text :=
  match p, s with
  | [], _ => Some s
  | a :: p', b :: s' => if Ascii.eqb a b then strip p' s' else None
  | _ :: _, [] => None
  end.

(** *** Numbers *)

(** An optional minus sign. *)
Definition parse_sign (s : text) : bool * text :=
  match s with
  | c :: r => if Ascii.eqb c "-"%char then (true, r) else (false, s)
  | [] => (false, s)
  end.

(** The integer part is [0] or starts with another digit. *)
Definition int_ok (i : text) : bool :=
  match i with
  | [] => false
  | [_] => true
  | c :: _ => negb (Ascii.eqb c "0"%char)
  end.

(** An optional fraction: a point and at least one digit. *)
Definition parse_frac (s : text) : option (text * text) :=
  match s with
  | d :: r =>
      if Ascii.eqb d "."%char then
        let (f, s2) := span_digits r in
        match f with [] => None | _ :: _ => Some (f, s2) end
      else Some ([], s)
  | [] => Some ([], s)
  end.

(** The sign of an exponent: [-], [+] or none. *)
Definition parse_exp_sign (r : text) : bool * text :=
  match r with
  | y :: r' =>
      if Ascii.eqb y "-"%char then (true, r')
      else if Ascii.eqb y "+"%char then (false, r')
      else (false, r)
  | [] => (false, r)
  end.

(** An optional exponent: [e] or [E], an optional sign and at least one
    digit.  The result is the exponent, [0] when there is none. *)
Definition parse_exp (s : text) : option (Z * text) :=
  match s with
  | x :: r =>
      if Ascii.eqb x "e"%char || Ascii.eqb x "E"%char then
        let (esign, r0) := parse_exp_sign r in
        let (e, s3) := span_digits r0 in
        match e with
        | [] => None
        | _ :: _ => Some (if esign then (- Z_of_digits e)%Z else Z_of_digits e, s3)
        end
      else Some (0%Z, s)
  | [] => Some (0%Z, s)
  end.

(** The digits of a number after its sign: an integer part without
    superfluous leading zero, an optional fraction and an optional exponent.
    The value is the double nearest to the decimal read. *)
Definition parse_digits (sign : bool) (s0 : text) : presult number :=
  let (i, s1) := span_digits s0 in
  if int_ok i then
    match parse_frac s1 with
    | None => PErr
    | Some (f, s2) =>
        match parse_exp s2 with
        | None => PErr
        | Some (x, s3) =>
            POk (number_of_decimal sign (i ++ f) (x - Z.of_nat (List.length f))) s3
        end
    end
  else PErr.

(** The JSON number grammar. *)
Definition parse_number (s : text) : presult number :=
  let (sign, s0) := parse_sign s in parse_digits sign s0.

(** *** Strings *)

Definition hex_val (c : ascii) : option N :=
  let n := N_of_ascii c in
  (if (48 <=? n) && (n <=? 57) then Some (n - 48)
   else if (97 <=? n) && (n <=? 102) then Some (n - 87)
   else if (65 <=? n) && (n <=? 70) then Some (n - 55)
   else None)%N.

Definition hex4 (a b c d : ascii) : option N :=
  match hex_val a, hex_val b, hex_val c, hex_val d with
  | Some x, Some y, Some z, Some w => Some (((x * 16 + y) * 16 + z) * 16 + w)%N
  | _, _, _, _ => None
  end.

(** The bytes of a code point in UTF-8, the encoding of the file. *)
Definition utf8 (cp : N) : text :=
  (if cp <? 128 then [ascii_of_N cp]
   else if cp <? 2048 then
     [ascii_of_N (192 + cp / 64); ascii_of_N (128 + cp mod 64)]
   else if cp <? 65536 then
     [ascii_of_N (224 + cp / 4096); ascii_of_N (128 + (cp / 64) mod 64);
      ascii_of_N (128 + cp mod 64)]
   else
     [ascii_of_N (240 + cp / 262144); ascii_of_N (128 + (cp / 4096) mod 64);
      ascii_of_N (128 + (cp / 64) mod 64); ascii_of_N (128 + cp mod 64)])%N.

Definition is_high_surrogate (u : N) : bool := ((55296 <=? u) && (u <=? 56319))%N.
Definition is_low_surrogate (u : N) : bool := ((56320 <=? u) && (u <=? 57343))%N.

(** A low surrogate escape at the head of [s], if there is one. *)
Definition low_escape (s : text) : option (N * text) :=
  match s with
  | b :: u :: h1 :: h2 :: h3 :: h4 :: r =>
      if Ascii.eqb b BS && Ascii.eqb u "u"%char then
        match hex4 h1 h2 h3 h4 with
        | Some lo => if is_low_surrogate lo then Some (lo, r) else None
        | None => None
        end
      else None
  | _ => None
  end.

(** The character a one-letter escape stands for. *)
Definition escape_char (e : ascii) : option ascii :=
  if Ascii.eqb e DQ then Some DQ
  else if Ascii.eqb e BS then Some BS
  else if Ascii.eqb e "/"%char then Some "/"%char
  else if Ascii.eqb e "b"%char then Some (ascii_of_nat 8)
  else if Ascii.eqb e "f"%char then Some (ascii_of_nat 12)
  else if Ascii.eqb e "n"%char then Some (ascii_of_nat 10)
  else if Ascii.eqb e "r"%char then Some (ascii_of_nat 13)
  else if Ascii.eqb e "t"%char then Some (ascii_of_nat 9)
  else None.

(** Put the characters just read in front of those the rest of the literal
    gives. *)
Definition push (c : text) (p : presult text) : presult text :=
  match p with
  | POk cs rest => POk (c ++ cs) rest
  | PErr => PErr
  | PFuel => PFuel
  end.

(** The characters of a string literal after its opening quote, up to and
    including the closing quote. *)
Fixpoint parse_chars (s : text) : presult text :=
  match s with
  | [] => PErr
  | c :: r =>
      if Ascii.eqb c DQ then POk [] r
      else if Ascii.eqb c BS then
        match r with
        | [] => PErr
        | e :: r1 =>
            match escape_char e with
            | Some b => push [b] (parse_chars r1)
            | None =>
                if Ascii.eqb e "u"%char then
                  match r1 with
                  | h1 :: h2 :: h3 :: h4 :: r2 =>
                      match hex4 h1 h2 h3 h4 with
                      | None => PErr
                      | Some u =>
                          match (if is_high_surrogate u then low_escape r2 else None) with
                          | Some (lo, _) =>
                              match r2 with
                              | _ :: _ :: _ :: _ :: _ :: _ :: r3 =>
                                  push (utf8 (65536 + (u - 55296) * 1024 + (lo - 56320))%N)
                                    (parse_chars r3)
                              | _ => PErr
                              end
                          | None => push (utf8 u) (parse_chars r2)
                          end
                      end
                  | _ => PErr
                  end
                else PErr
            end
        end
      else if nat_of_ascii c <? 32 then PErr
      else push [c] (parse_chars r)
  end.

Definition parse_string (s : text) : presult string :=
  match parse_chars s with
  | POk cs rest => POk (string_of_list_ascii cs) rest
  | PErr => PErr
  | PFuel => PFuel
  end.

(** *** Values *)

(** [JSON.parse] defines a property as it reads it: a repeated key takes the
    later value and keeps the earlier place. *)
Fixpoint parse_value (fuel : nat) (s : text) : presult json :=
  match fuel with
  | 0 => PFuel
  | S fuel' =>
      match skip_ws s with
      | [] => PErr
      | c :: r =>
          if Ascii.eqb c "{"%char then
            match skip_ws r with
            | c1 :: r1 =>
                if Ascii.eqb c1 "}"%char then POk (JObj []) r1
                else
                  match parse_members fuel' [] (c1 :: r1) with
                  | POk o rest => POk (JObj o) rest
                  | PErr => PErr
                  | PFuel => PFuel
                  end
            | [] => PErr
            end
          else if Ascii.eqb c "["%char then
            match skip_ws r with
            | c1 :: r1 =>
                if Ascii.eqb c1 "]"%char then POk (JArr []) r1
                else
                  match parse_items fuel' (c1 :: r1) with
                  | POk l rest => POk (JArr l) rest
                  | PErr => PErr
                  | PFuel => PFuel
                  end
            | [] => PErr
            end
          else if Ascii.eqb c DQ then
            match parse_string r with
            | POk str rest => POk (JStr str) rest
            | PErr => PErr
            | PFuel => PFuel
            end
          else
            match strip (txt "null") (c :: r) with
            | Some rest => POk JNull rest
            | None =>
                match strip (txt "true") (c :: r) with
                | Some rest => POk (JBool true) rest
                | None =>
                    match strip (txt "false") (c :: r) with
                    | Some rest => POk (JBool false) rest
                    | None =>
                        match parse_number (c :: r) with
                        | POk n rest => POk (JNum n) rest
                        | PErr => PErr
                        | PFuel => PFuel
                        end
                    end
                end
            end
      end
  end

with parse_items (fuel : nat) (s : text) : presult (list json) :=
  match fuel with
  | 0 => PFuel
  | S fuel' =>
      match parse_value fuel' s with
      | POk v r =>
          match skip_ws r with
          | c :: r1 =>
              if Ascii.eqb c "]"%char then POk [v] r1
              else if Ascii.eqb c ","%char then
                match parse_items fuel' r1 with
                | POk l rest => POk (v :: l) rest
                | other => other
                end
              else PErr
          | [] => PErr
          end
      | PErr => PErr
      | PFuel => PFuel
      end
  end

with parse_members (fuel : nat) (acc : obj) (s : text) : presult obj :=
  match fuel with
  | 0 => PFuel
  | S fuel' =>
      match skip_ws s with
      | q :: r =>
          if Ascii.eqb q DQ then
            match parse_string r with
            | POk k r0 =>
                match skip_ws r0 with
                | c0 :: r1 =>
                    if Ascii.eqb c0 ":"%char then
                      match parse_value fuel' r1 with
                      | POk v r2 =>
                          match skip_ws r2 with
                          | c :: r3 =>
                              if Ascii.eqb c "}"%char then POk (set_prop k v acc) r3
                              else if Ascii.eqb c ","%char then
                                parse_members fuel' (set_prop k v acc) r3
                              else PErr
                          | [] => PErr
                          end
                      | PErr => PErr
                      | PFuel => PFuel
                      end
                    else PErr
                | [] => PErr
                end
            | PErr => PErr
            | PFuel => PFuel
            end
          else PErr
      | [] => PErr
      end
  end.

(** [JSON.parse]: one value, then nothing but white space.  [None] is a
    [SyntaxError]. *)
Definition JSON_parse (s : text) : option json :=
  match parse_value (2 * List.length s + 1) s with
  | POk v rest => match skip_ws rest with [] => Some v | _ :: _ => None end
  | PErr => None
  | PFuel => None
  end.

(** ** Calendar dates ([Date.prototype.toISOString]) *)

Module Dates.
Local Open Scope Z_scope.

Definition msPerDay : Z := 86400000.

(** Day number and time within the day of a time value in milliseconds. *)
Definition Day (t : Z) : Z := t / msPerDay.
Definition TimeWithinDay (t : Z) : Z := t mod msPerDay.

Definition DaysInYear (y : Z) : Z :=
  if negb (y mod 4 =? 0) then 365
  else if negb (y mod 100 =? 0) then 366
  else if negb (y mod 400 =? 0) then 365
  else 366.

(** Day number of the first day of year [y]. *)
Definition DayFromYear (y : Z) : Z :=
  365 * (y - 1970) + (y - 1969) / 4 - (y - 1901) / 100 + (y - 1601) / 400.

(** The year a day falls in: the largest [y] with [DayFromYear y <= day],
    found from an estimate that is off by at most one. *)
Definition YearFromDay (day : Z) : Z :=
  let y0 := 1970 + (day * 400) / 146097 in
  if day <? DayFromYear y0 then y0 - 1
  else if DayFromYear (y0 + 1) <=? day then y0 + 1
  else y0.

Definition InLeapYear (y : Z) : Z := if DaysInYear y =? 366 then 1 else 0.

(** Month (0 to 11) of the day number [d] within a year; [l] is 1 in a leap
    year. *)
Definition MonthFromDay (d l : Z) : Z :=
  if d <? 31 then 0
  else if d <? 59 + l then 1
  else if d <? 90 + l then 2
  else if d <? 120 + l then 3
  else if d <? 151 + l then 4
  else if d <? 181 + l then 5
  else if d <? 212 + l then 6
  else if d <? 243 + l then 7
  else if d <? 273 + l then 8
  else if d <? 304 + l then 9
  else if d <? 334 + l then 10
  else 11.

(** Day number within the year of the first day of month [m]. *)
Definition MonthStart (m l : Z) : Z :=
  if m =? 0 then 0
  else if m =? 1 then 31
  else if m =? 2 then 59 + l
  else if m =? 3 then 90 + l
  else if m =? 4 then 120 + l
  else if m =? 5 then 151 + l
  else if m =? 6 then 181 + l
  else if m =? 7 then 212 + l
  else if m =? 8 then 243 + l
  else if m =? 9 then 273 + l
  else if m =? 10 then 304 + l
  else 334 + l.

(** Day of the month (1 to 31). *)
Definition DateFromDay (d l : Z) : Z := d - MonthStart (MonthFromDay d l) l + 1.

(** Year, month (1 to 12) and day of the month of a time value. *)
Definition civil (t : Z) : Z * Z * Z :=
  let day := Day t in
  let y := YearFromDay day in
  let d := day - DayFromYear y in
  let l := InLeapYear y in
  (y, MonthFromDay d l + 1, DateFromDay d l).

Definition pad2 (n : Z) : text := [digit (n / 10); digit n].
Definition pad3 (n : Z) : text := [digit (n / 100); digit (n / 10); digit n].
Definition pad4 (n : Z) : text := [digit (n / 1000); digit (n / 100); digit (n / 10); digit n].
Definition pad6 (n : Z) : text := [digit (n / 100000); digit (n / 10000)] ++ pad4 n.

(** Years 0 to 9999 take four digits, the others a sign and six digits. *)
Definition year_text (y : Z) : text :=
  if (0 <=? y) && (y <=? 9999) then pad4 y
  else (if y <? 0 then "-"%char else "+"%char) :: pad6 (Z.abs y).

Definition date_text (t : Z) : text :=
  let '(y, m, d) := civil t in
  year_text y ++ "-"%char :: pad2 m ++ "-"%char :: pad2 d.

Definition time_text (t : Z) : text :=
  let w := TimeWithinDay t in
  pad2 (w / 3600000) ++ ":"%char :: pad2 (w / 60000 mod 60)
  ++ ":"%char :: pad2 (w / 1000 mod 60) ++ "."%char :: pad3 (w mod 1000).

(** A time value a [Date] can hold (TimeClip). *)
Definition valid_time (t : Z) : bool := Z.abs t <=? 8640000000000000.

(** [toISOString] of the [Date] with time value [t]; [None] is the invalid
    date, on which the method throws a [RangeError]. *)
Definition toISOString (t : option Z) : res text :=
  match t with
  | None => Throw RangeError
  | Some t =>
      if valid_time t then Ok (date_text t ++ "T"%char :: time_text t ++ ["Z"%char])
      else Throw RangeError
  end.

(** [s.split('T')[0]]: the text before the first [T]. *)
Fixpoint before_T (s : text) : text :=
  match s with
  | [] => []
  | c :: r => if Ascii.eqb c "T"%char then [] else c :: before_T r
  end.

End Dates.

(** ** The portfolio store *)

(** The process-wide array [portfolios] and the file [db.json] ([None] when
    the file cannot be read). *)
Record state : Type := mkState {
  portfolios : list json;
  db : option text
}.

(** What [fs.writeFile] does on one call: it writes the text, or it rejects
    and leaves the file in some condition the program does not control. *)
Inductive fs_write : Type :=
| WriteOk
| WriteFails (code : string) (leftover : option text).

(** What a handler hands back: a response it sent, or an exception that left
    the handler. *)
Inductive reply : Type :=
| Reply (status : nat) (body : json)
| Unhandled (e : js_error).

Definition error_body (msg : string) : json := JObj [("error", JStr msg)].

(** [loadPortfolios]: the value the variable [portfolios] holds afterwards,
    [cur] being its value before.  Both a rejected read and any exception of
    the [try] block end in the [catch], which only logs. *)
Definition loadPortfolios (cur : json) (file : option text) : json :=
  match file with
  | None => cur
  | Some data =>
      match JSON_parse data with
      | None => cur
      | Some parsed =>
          match get_prop parsed "portfolios" with
          | Throw _ => cur
          | Ok (Some p) => if truthy p then p else JArr []
          | Ok None => JArr []
          end
      end
  end.

(** The module starts with [let portfolios = []] and awaits one
    [loadPortfolios ()]. *)
Definition startup (file : option text) : json := loadPortfolios (JArr []) file.

(** [JSON.stringify ({ portfolios }, null, 2)]. *)
Definition saved_text (l : list json) : text :=
  JSON_stringify (JObj [("portfolios", JArr l)]).

(** [savePortfolios]: serialize [{ portfolios }] and overwrite the file; a
    rejected write is logged and thrown again. *)
Definition savePortfolios (w : fs_write) (st : state) : state * res unit :=
  let data := saved_text (portfolios st) in
  match w with
  | WriteOk => (mkState (portfolios st) (Some data), Ok tt)
  | WriteFails code leftover => (mkState (portfolios st) leftover, Throw (IOError code))
  end.

(** The callback [p => p.id === id], [id] being a route parameter and so a
    string. *)
Definition has_id (id : string) (p : json) : res bool :=
  x <- get_prop p "id" ;;
  Ok (match x with
      | Some (JStr s) => String.eqb s id
      | _ => false
      end).

(** [Array.prototype.find]. *)
Fixpoint find (id : string) (l : list json) : res (option json) :=
  match l with
  | [] => Ok None
  | p :: rest =>
      b <- has_id id p ;;
      if b then Ok (Some p) else find id rest
  end.

(** [Array.prototype.findIndex]; [None] stands for [-1]. *)
Fixpoint findIndex (id : string) (l : list json) : res (option nat) :=
  match l with
  | [] => Ok None
  | p :: rest =>
      b <- has_id id p ;;
      if b then Ok (Some 0)
      else
        i <- findIndex id rest ;;
        Ok (option_map S i)
  end.

(** [l.splice (i, 1)]. *)
Fixpoint remove_at (i : nat) (l : list json) : list json :=
  match l, i with
  | [], _ => []
  | _ :: rest, 0 => rest
  | x :: rest, S i' => x :: remove_at i' rest
  end.

(** [l[i] = x] for an index within the array. *)
Fixpoint replace_at (i : nat) (x : json) (l : list json) : list json :=
  match l, i with
  | [], _ => []
  | _ :: rest, 0 => x :: rest
  | y :: rest, S i' => y :: replace_at i' x rest
  end.

(** The items of an array as properties: each under its index. *)
Fixpoint indexed (i : nat) (l : list json) : obj :=
  match l with
  | [] => []
  | x :: rest => (string_of_list_ascii (dec_text (Z.of_nat i)), x) :: indexed (S i) rest
  end.

(** The own enumerable properties an object spread copies: the properties of
    an object and the items of an array.  The handlers spread a record that
    [findIndex] matched, which is an object, and the body of a request, which
    [express.json ()] hands over as an object or an array. *)
Definition own_props (v : json) : obj :=
  match v with
  | JObj o => o
  | JArr l => indexed 0 l
  | _ => []
  end.

(** [r.k = v] on a record that [findIndex] matched. *)
Definition assign (r : json) (k : string) (v : json) : json :=
  match r with
  | JObj o => JObj (set_prop k v o)
  | other => other
  end.

(** [GET /portfolios]. *)
Definition get_portfolios (st : state) : reply := Reply 200 (JArr (portfolios st)).

(** [GET /portfolios/:id]. *)
Definition get_portfolio (id : string) (st : state) : reply :=
  match find id (portfolios st) with
  | Throw e => Unhandled e
  | Ok (Some p) => if truthy p then Reply 200 p else Reply 404 (error_body "Portfolio not found")
  | Ok None => Reply 404 (error_body "Portfolio not found")
  end.

(** [POST /portfolios]. *)
Definition post_portfolio (w : fs_write) (newPortfolio : json) (st : state) : state * reply :=
  let st1 := mkState (portfolios st ++ [newPortfolio]) (db st) in
  match savePortfolios w st1 with
  | (st2, Ok _) => (st2, Reply 201 newPortfolio)
  | (st2, Throw _) => (st2, Reply 500 (error_body "Failed to save new portfolio"))
  end.

(** [DELETE /portfolios/:id]. *)
Definition delete_portfolio (w : fs_write) (id : string) (st : state) : state * reply :=
  match findIndex id (portfolios st) with
  | Throw e => (st, Unhandled e)
  | Ok None => (st, Reply 404 (error_body "Portfolio not found"))
  | Ok (Some i) =>
      let st1 := mkState (remove_at i (portfolios st)) (db st) in
      match savePortfolios w st1 with
      | (st2, Ok _) => (st2, Reply 200 (JObj [("message", JStr "Portfolio deleted successfully")]))
      | (st2, Throw _) => (st2, Reply 500 (error_body "Failed to delete portfolio"))
      end
  end.

Definition updated_body (p : json) : json :=
  JObj [("message", JStr "Portfolio updated successfully"); ("portfolio", p)].

(** [PUT /portfolios/:id] with the own properties of the body, which are all
    the handler uses of it. *)
Definition put_portfolio (w : fs_write) (id : string) (updatedPortfolio : obj) (st : state)
  : state * reply :=
  match findIndex id (portfolios st) with
  | Throw e => (st, Unhandled e)
  | Ok None => (st, Reply 404 (error_body "Portfolio not found"))
  | Ok (Some i) =>
      let merged := JObj (spread (own_props (nth i (portfolios st) JNull)) updatedPortfolio) in
      let st1 := mkState (replace_at i merged (portfolios st)) (db st) in
      match savePortfolios w st1 with
      | (st2, Ok _) => (st2, Reply 200 (updated_body (nth i (portfolios st2) JNull)))
      | (st2, Throw _) => (st2, Reply 500 (error_body "Failed to update portfolio"))
      end
  end.

(** One of the three guarded assignments of the [PATCH] handler:
    [if (v) { r.k = v }]. *)
Definition patch_field (k : string) (body : obj) (r : json) : json :=
  match lookup k body with
  | Some v => if truthy v then assign r k v else r
  | None => r
  end.

(** [PATCH /portfolios/:id] once [analysis], [coins] and [values] are bound:
    [body] gives the values of the three names (see [destructured]). *)
Definition patch_portfolio (w : fs_write) (id : string) (body : obj) (st : state)
  : state * reply :=
  match findIndex id (portfolios st) with
  | Throw e => (st, Unhandled e)
  | Ok None => (st, Reply 404 (error_body "Portfolio not found"))
  | Ok (Some i) =>
      let r0 := nth i (portfolios st) JNull in
      let r1 := patch_field "analysis" body r0 in
      let r2 := patch_field "coins" body r1 in
      let r3 := patch_field "values" body r2 in
      let st1 := mkState (replace_at i r3 (portfolios st)) (db st) in
      match savePortfolios w st1 with
      | (st2, Ok _) => (st2, Reply 200 (updated_body (nth i (portfolios st2) JNull)))
      | (st2, Throw _) => (st2, Reply 500 (error_body "Failed to update portfolio"))
      end
  end.

(** [const { analysis, coins, values } = req.body]: what the three names are
    bound to.  On an object they are its own properties, no prototype of an
    object has one of them.  An array has no property [analysis] or [coins],
    but it inherits the method [values] of [Array.prototype]: on an array
    body [values] is that function, which is truthy. *)
Definition destructured (body : json) : obj :=
  match body with
  | JObj o => o
  | JArr _ => [("values", JFun "values")]
  | _ => []
  end.

(** The two update handlers on the body [express.json ()] hands over.
    Destructuring [null] throws, before the [try] and before the search. *)
Definition put_request (w : fs_write) (id : string) (body : json) (st : state)
  : state * reply :=
  put_portfolio w id (own_props body) st.

Definition patch_request (w : fs_write) (id : string) (body : json) (st : state)
  : state * reply :=
  match body with
  | JNull => (st, Unhandled TypeError)
  | _ => patch_portfolio w id (destructured body) st
  end.

(** ** The prediction client *)

(** A formatted point [{ ds, y }]; [y] is [None] when [item.close] is
    [undefined]. *)
Record point : Type := mkPoint {
  ds : string;
  y : option json
}.

(** The double a finite number is, as sign and magnitude: the one nearest to
    its numeral. *)
Definition double_of (n : number) : option (bool * (Z * Z)) :=
  match n with
  | Infinity _ => None
  | mkNum sg i f =>
      let (p, q) := Binary64.decimal (Z_of_digits (txt i ++ txt f))
                      (- Z.of_nat (List.length (txt f))) in
      option_map (pair sg) (Binary64.round p q)
  end.

(** The time value of [new Date (n * 1000)]: the product of the two doubles,
    rounded to a double as every product is, and then cut to an integer.
    [None] is the time value of an invalid date, which a product that is not
    finite gives. *)
Definition millis (n : number) : option Z :=
  match double_of n with
  | None => None
  | Some (sg, d) =>
      let (p, q) := Binary64.fraction d in
      match Binary64.round (1000 * p) q with
      | None => None
      | Some d' =>
          let (p', q') := Binary64.fraction d' in
          Some (if sg then (- (p' / q'))%Z else (p' / q')%Z)
      end
  end.

Definition upper (c : ascii) : ascii :=
  let n := nat_of_ascii c in
  if (97 <=? n) && (n <=? 122) then ascii_of_nat (n - 32) else c.

(** [toUpperCase] on the ASCII letters. *)
Definition toUpperCase (s : string) : string :=
  string_of_list_ascii (map upper (list_ascii_of_string s)).

Definition histoday_url (api_key : option string) (coinId : string) : string :=
  "https://min-api.cryptocompare.com/data/v2/histoday?fsym=" ++ toUpperCase coinId
  ++ "&tsym=USD&limit=365&api_key="
  ++ match api_key with Some k => k | None => "undefined" end.

(** Arrays and strings have a method [slice]; numbers, booleans, objects read
    from JSON and the built-in function a record can hold have none. *)
Definition has_slice (v : json) : bool :=
  match v with
  | JArr _ => true
  | JStr _ => true
  | _ => false
  end.

Definition isArray (v : json) : bool :=
  match v with
  | JArr _ => true
  | _ => false
  end.

Section PredictionClient.

(** The conversion of a string to a number and of an array to a string are
    left to the language; nothing below depends on what they give. *)
Variable StringToNumber : string -> option number.
Variable ArrayToString : list json -> string.

(** The market-data service: the body of its response to a URL, or the
    error [axios.get] rejects with. *)
Variable market : string -> res json.

(** The prediction service: the body of its response to a posted payload,
    or the error [axios.post] rejects with. *)
Variable flask : json -> res json.

Variable api_key : option string.

(** ToNumber; [None] is [NaN].  An object whose own [toString] shadows the
    inherited method cannot be converted at all. *)
Definition ToNumber (v : option json) : res (option number) :=
  match v with
  | None => Ok None
  | Some JNull => Ok (Some (mkNum false "0" ""))
  | Some (JBool b) => Ok (Some (mkNum false (if b then "1" else "0") ""))
  | Some (JNum n) => Ok (Some n)
  | Some (JStr s) => Ok (StringToNumber s)
  | Some (JArr l) => Ok (StringToNumber (ArrayToString l))
  | Some (JObj o) =>
      match lookup "toString" o with
      | Some _ => Throw TypeError
      | None => Ok None
      end
  | Some (JFun _) => Ok None
  end.

(** The callback of [rawData.map]. *)
Definition format_item (item : json) : res point :=
  t <- get_prop item "time" ;;
  n <- ToNumber t ;;
  iso <- Dates.toISOString (match n with Some n => millis n | None => None end) ;;
  c <- get_prop item "close" ;;
  Ok (mkPoint (string_of_list_ascii (Dates.before_T iso)) c).

Fixpoint map_res (l : list json) : res (list point) :=
  match l with
  | [] => Ok []
  | item :: rest =>
      p <- format_item item ;;
      ps <- map_res rest ;;
      Ok (p :: ps)
  end.

(** [fetchHistoricalData]; the [catch] logs and throws the error again. *)
Definition fetchHistoricalData (coinId : string) : res (list point) :=
  data <- market (histoday_url api_key coinId) ;;
  d <- get_prop data "Data" ;;
  rawData <- get_prop_opt d "Data" ;;
  match rawData with
  | Some (JArr items) => map_res items
  | _ => Throw TypeError
  end.

(** [POST /api/predictions/:coinId]. *)
Definition post_predictions (coinId : string) (body : json) : reply :=
  match get_prop body "historical_data" with
  | Throw e => Unhandled e
  | Ok None => Reply 400 (error_body "Invalid or missing historical_data")
  | Ok (Some historical_data) =>
      if negb (truthy historical_data) || negb (isArray historical_data) then
        Reply 400 (error_body "Invalid or missing historical_data")
      else
        match flask (JObj [("historical_data", historical_data)]) with
        | Throw _ => Reply 500 (error_body "Failed to fetch predictions from Flask")
        | Ok data =>
            if has_slice data then Reply 200 data
            else Reply 500 (error_body "Failed to fetch predictions from Flask")
        end
  end.

End PredictionClient.

(** *** The route that fetches the history itself *)

(** A point as the prediction service receives it: [axios] sends the payload
    through [JSON.stringify], which leaves out a property that is
    [undefined]. *)
Definition point_json (p : point) : json :=
  JObj (("ds", JStr (ds p)) :: match y p with Some v => [("y", v)] | None => [] end).

Section PredictionRoute.

Variable StringToNumber : string -> option number.
Variable ArrayToString : list json -> string.
Variable market : string -> res json.
Variable flask : json -> res json.
Variable api_key : option string.

(** [GET /api/predictions/:coinId]. *)
Definition get_predictions (coinId : string) : reply :=
  match fetchHistoricalData StringToNumber ArrayToString market api_key coinId with
  | Throw _ => Reply 500 (error_body "Failed to fetch predictions")
  | Ok historicalData =>
      match flask (JObj [("historical_data", JArr (map point_json historicalData))]) with
      | Throw _ => Reply 500 (error_body "Failed to fetch predictions")
      | Ok data =>
          if has_slice data then Reply 200 data
          else Reply 500 (error_body "Failed to fetch predictions")
      end
  end.

End PredictionRoute.

(** [GET /]. *)
Definition get_welcome : reply := Reply 200 (JStr "Welcome to My Crypto Portfolio API").

(** ** Predicates the statements use *)

Definition number_eqb (a b : number) : bool :=
  match a, b with
  | mkNum sg i f, mkNum sg' i' f' => Bool.eqb sg sg' && String.eqb i i' && String.eqb f f'
  | Infinity sg, Infinity sg' => Bool.eqb sg sg'
  | _, _ => false
  end.

(** A numeral in its plain shape: digits only, an integer part without
    superfluous leading zero, a fraction without trailing zero, and no
    negative zero. *)
Definition plain (sg : bool) (i f : text) : bool :=
  forallb is_digit i && forallb is_digit f
  && int_ok i
  && match rev f with
     | [] => true
     | c :: _ => negb (Ascii.eqb c "0"%char)
     end
  && (negb sg || negb (forallb (fun c => Ascii.eqb c "0"%char) (i ++ f))).

(** The numerals that stand for a finite double, which is what every finite
    number of a JavaScript program is: a plain numeral that is the text
    Number::toString gives for the double nearest to it.  So [0.1] and
    [0.30000000000000004] are canonical, [0.10000000000000001] is not: it is
    read as the double that is written [0.1]. *)
Definition canonical (n : number) : bool :=
  match n with
  | mkNum sg i f =>
      plain sg (txt i) (txt f)
      && number_eqb
           (number_of_decimal sg (txt i ++ txt f) (- Z.of_nat (List.length (txt f)))) n
  | Infinity _ => false
  end.



(** [p.id === id] as a plain test: [false] also on [null]. *)
Definition matches (id : string) (p : json) : bool :=
  match has_id id p with
  | Ok b => b
  | Throw _ => false
  end.

Definition count_id (id : string) (l : list json) : nat :=
  List.length (filter (matches id) l).

Definition not_null (p : json) : bool :=
  match p with
  | JNull => false
  | _ => true
  end.

Definition not_found : reply := Reply 404 (error_body "Portfolio not found").


Definition whitelisted (k : string) : bool :=
  String.eqb k "analysis" || String.eqb k "coins" || String.eqb k "values".

(** The shape [YYYY-MM-DD]. *)
Definition YYYY_MM_DD (s : string) : bool :=
  match list_ascii_of_string s with
  | [y1; y2; y3; y4; h1; m1; m2; h2; d1; d2] =>
      forallb is_digit [y1; y2; y3; y4; m1; m2; d1; d2]
      && Ascii.eqb h1 "-"%char && Ascii.eqb h2 "-"%char
  | _ => false
  end.

(** Time values from 0000-01-01T00:00:00.000Z to 9999-12-31T23:59:59.999Z. *)
Definition four_digit_year (t : Z) : bool :=
  ((-62167219200000 <=? t) && (t <=? 253402300799999))%Z.

(** The date part of [toISOString] for a year of four digits. *)
Definition calendar_day (t : Z) : string :=
  let '(y, m, d) := Dates.civil t in
  string_of_list_ascii (Dates.pad4 y ++ "-"%char :: Dates.pad2 m ++ "-"%char :: Dates.pad2 d).

(** A raw point as the market-data service documents it: an object whose
    [time] is a number.  The result is that number and the [close] field. *)
Definition raw_point (item : json) : option (number * option json) :=
  match item with
  | JObj o =>
      match lookup "time" o with
      | Some (JNum n) => Some (n, lookup "close" o)
      | _ => None
      end
  | _ => None
  end.

(** [response.data.Data.Data]. *)
Definition raw_data (data : json) : res (option json) :=
  d <- get_prop data "Data" ;;
  get_prop_opt d "Data".

(** The Gregorian calendar, as the statements about dates take it: the leap
    years, the lengths of the months, the number of a day counted from the
    first of January 1970, and the writing [YYYY-MM-DD] of a date. *)
Module Gregorian.
Local Open Scope Z_scope.

Definition leap (y : Z) : bool :=
  (y mod 4 =? 0) && (negb (y mod 100 =? 0) || (y mod 400 =? 0)).

Definition month_length (y m : Z) : Z :=
  if m =? 2 then (if leap y then 29 else 28)
  else if (m =? 4) || (m =? 6) || (m =? 9) || (m =? 11) then 30
  else 31.

(** [y-m-d] is a date of the calendar. *)
Definition date (y m d : Z) : bool :=
  (1 <=? m) && (m <=? 12) && (1 <=? d) && (d <=? month_length y m).

(** The leap years among the years [1] to [y - 1]. *)
Definition leaps_before (y : Z) : Z := (y - 1) / 4 - (y - 1) / 100 + (y - 1) / 400.

(** The days from the first of January 1970 to the first of January [y]. *)
Definition year_start (y : Z) : Z :=
  365 * (y - 1970) + (leaps_before y - leaps_before 1970).

(** The days of the first [k] months of year [y]. *)
Fixpoint months (y : Z) (k : nat) : Z :=
  match k with
  | O => 0
  | S k' => months y k' + month_length y (Z.of_nat k)
  end.

(** The days from the first of January 1970 to the date [y-m-d]. *)
Definition day_number (y m d : Z) : Z :=
  year_start y + months y (Z.to_nat (m - 1)) + (d - 1).

Definition figure (n : Z) : ascii :=
  nth (Z.to_nat n) (list_ascii_of_string "0123456789") "0"%char.

(** [n] written with [width] digits. *)
Fixpoint written (width : nat) (n : Z) : list ascii :=
  match width with
  | O => []
  | S w => written w (n / 10) ++ [figure (n mod 10)]
  end.

Definition iso_date (y m d : Z) : string :=
  string_of_list_ascii (written 4 y ++ "-"%char :: written 2 m ++ "-"%char :: written 2 d).

End Gregorian.

(** The time stamp of a number that is a whole number of seconds. *)
Definition seconds (n : number) : option Z :=
  match n with
  | mkNum sg i f =>
      if plain sg (txt i) (txt f) && String.eqb f "" then
        Some (if sg then (- Z_of_digits (txt i))%Z else Z_of_digits (txt i))
      else None
  | Infinity _ => None
  end.

(** Seconds from 0000-01-01T00:00:00Z to 9999-12-31T23:59:59Z. *)
Definition four_digit_years (t : Z) : bool :=
  ((-62167219200 <=? t) && (t <=? 253402300799))%Z.

(** A raw point with a Unix time stamp: an object whose [time] is a whole
    number of seconds dated within the years 0000 to 9999.  The result is the
    time stamp and the [close] field. *)
Definition dated_point (item : json) : option (Z * option json) :=
  match raw_point item with
  | Some (n, c) =>
      match seconds n with
      | Some t => if four_digit_years t then Some (t, c) else None
      | None => None
      end
  | None => None
  end.

(** The point [p] carries the UTC calendar day of the time stamp [t], written
    [YYYY-MM-DD], and the value [c]. *)
Definition day_point (t : Z) (c : option json) (p : point) : Prop :=
  y p = c
  /\ exists yy mm dd : Z,
       Gregorian.date yy mm dd = true
       /\ Gregorian.day_number yy mm dd = (t / 86400)%Z
       /\ ds p = Gregorian.iso_date yy mm dd.

(** The response of the market-data service with [items] as its series. *)
Definition histoday_response (items : list json) : json :=
  JObj [("Response", JStr "Success"); ("Data", JObj [("Data", JArr items)])].

(** *** The text of a value within a larger text *)



(** The separator between two items or members at nesting level [lvl]. *)
Definition sep (lvl : nat) : text := txt "," ++ newline lvl.



(** * Properties *)

(** ** Worked examples *)

Example stringify_example :
  string_of_list_ascii
    (JSON_stringify
       (JObj [("portfolios",
               JArr [JArr [JNum (mkNum true "1" "5"); JNull; JBool true]; JArr []; JObj []])]))
  = string_of_list_ascii
      ("{"%char :: LF :: txt "  " ++ quote "portfolios" ++ txt ": [
    [
      -1.5,
      null,
      true
    ],
    [],
    {}
  ]
}").
Proof. reflexivity. Qed.

Example quote_example :
  quote (String (ascii_of_nat 31) (String DQ "a\b"))
  = DQ :: txt "\u001f\" ++ DQ :: txt "a\\b" ++ [DQ].
Proof. reflexivity. Qed.

Example parse_example :
  JSON_parse (txt " [1, 2.50e1 ,[] ,{ } , -0, 12e-1]  ")
  = Some (JArr [JNum (mkNum false "1" ""); JNum (mkNum false "25" ""); JArr []; JObj [];
                JNum (mkNum false "0" ""); JNum (mkNum false "1" "2")]).
Proof. reflexivity. Qed.

(** Numbers are doubles: a text is read as the nearest double, beyond the
    range as infinity and below it as zero. *)
Example parse_number_examples :
  map JSON_parse [txt "9007199254740993"; txt "0.10000000000000001"; txt "0.3e0";
                  txt "1e400"; txt "-1e-400"; txt "5e-324"; txt "0.1e-6"]
  = map (fun n => Some (JNum n))
      [mkNum false "9007199254740992" ""; mkNum false "0" "1"; mkNum false "0" "3";
       Infinity false; mkNum false "0" "";
       mkNum false "0" (string_of_list_ascii (repeat "0"%char 323 ++ ["5"%char]));
       mkNum false "0" "0000001"].
Proof. vm_compute. reflexivity. Qed.

(** Number::toString writes a magnitude from [1e21] on and one below [1e-6]
    in exponent form; what is not finite is written [null], and so is a
    function inside an array, while an object leaves a function out. *)
Example stringify_number_examples :
  map (fun v => string_of_list_ascii (JSON_stringify v))
    [JNum (mkNum false "1000000000000000000000" "");
     JNum (mkNum false "999999999999999900000" "");
     JNum (mkNum true "1234500000000000000000000" "");
     JNum (mkNum false "0" "0000001");
     JNum (mkNum false "0" "00000025");
     JNum (mkNum false "0" "000001");
     JNum (mkNum false "0" "30000000000000004");
     JNum (Infinity true);
     JObj [("values", JFun "values")]]
  = ["1e+21"; "999999999999999900000"; "-1.2345e+24"; "1e-7"; "2.5e-7"; "0.000001";
     "0.30000000000000004"; "null"; "{}"].
Proof. vm_compute. reflexivity. Qed.

(** The product with 1000 is a product of doubles, and the [Date] constructor
    cuts it towards zero. *)
Example millis_examples :
  map millis [mkNum false "1700000000" ""; mkNum true "16848000" "001";
              mkNum false "1" "0005"; mkNum false "0" "0001"; Infinity false;
              mkNum false (string_of_list_ascii ("1"%char :: repeat "0"%char 308)) ""]
  = [Some 1700000000000%Z; Some (-16848000000)%Z; Some 1000%Z; Some 0%Z; None; None].
Proof. vm_compute. reflexivity. Qed.

Example parse_duplicate_key :
  JSON_parse (DQ :: txt "a" ++ DQ :: txt ": 1}")
  = None
  /\ JSON_parse ("{"%char :: quote "a" ++ txt ":1," ++ quote "b" ++ txt ":2," ++ quote "a" ++ txt ":3}")
     = Some (JObj [("a", JNum (mkNum false "3" "")); ("b", JNum (mkNum false "2" ""))]).
Proof. split; reflexivity. Qed.

Example parse_errors :
  map JSON_parse [txt ""; txt "[1,]"; txt "01"; txt "1."; txt "nul"; txt "[1] x"; txt "{ portfolios: [] }"]
  = [None; None; None; None; None; None; None].
Proof. reflexivity. Qed.

Example toISOString_example :
  Dates.toISOString (Some 1700000000123%Z) = Ok (txt "2023-11-14T22:13:20.123Z")
  /\ Dates.toISOString (Some (-1)%Z) = Ok (txt "1969-12-31T23:59:59.999Z")
  /\ Dates.toISOString (Some 951782400000%Z) = Ok (txt "2000-02-29T00:00:00.000Z")
  /\ Dates.toISOString (Some 8640000000000001%Z) = Throw RangeError
  /\ Dates.toISOString None = Throw RangeError.
Proof. repeat split; reflexivity. Qed.

(** The scenario of the specification: insert, read, patch, delete, read. *)
Example crud_scenario :
  let abc := JObj [("id", JStr "abc"); ("coins", JArr [JStr "BTC"])] in
  let hundred := JArr [JNum (mkNum false "100" "")] in
  let abc' := JObj [("id", JStr "abc"); ("coins", JArr [JStr "BTC"]); ("values", hundred)] in
  let s0 := mkState [] None in
  let '(s1, r1) := post_portfolio WriteOk abc s0 in
  let r2 := get_portfolio "abc" s1 in
  let '(s3, r3) := patch_portfolio WriteOk "abc" [("values", hundred)] s1 in
  let '(s4, r4) := delete_portfolio WriteOk "abc" s3 in
  let r5 := get_portfolio "abc" s4 in
  r1 = Reply 201 abc /\ r2 = Reply 200 abc /\ r3 = Reply 200 (updated_body abc')
  /\ r4 = Reply 200 (JObj [("message", JStr "Portfolio deleted successfully")])
  /\ r5 = not_found
  /\ startup (db s3) = JArr [abc'] /\ startup (db s4) = JArr [].
Proof. vm_compute. repeat split; reflexivity. Qed.

Example predictions_not_an_array :
  post_predictions (fun _ => Ok (JArr [])) "btc" (JObj [("historical_data", JStr "not-an-array")])
  = Reply 400 (error_body "Invalid or missing historical_data").
Proof. reflexivity. Qed.

Example predictions_upstream_down :
  post_predictions (fun _ => Throw (HttpError "ECONNREFUSED")) "btc"
    (JObj [("historical_data", JArr [])])
  = Reply 500 (error_body "Failed to fetch predictions from Flask").
Proof. reflexivity. Qed.

(** The [|| []] of [loadPortfolios] lets a truthy value that is no array
    through. *)
Example load_not_an_array :
  startup (Some ("{"%char :: quote "portfolios" ++ txt ": 5}")) = JNum (mkNum false "5" "").
Proof. reflexivity. Qed.

(** ** Objects *)

Lemma lookup_set_prop_same (k : string) (v : json) (o : obj) :
  lookup k (set_prop k v o) = Some v.
Proof.
  induction o as [|[k' v'] o IH]; simpl.
  - now rewrite String.eqb_refl.
  - destruct (String.eqb k k') eqn:E; simpl.
    + now rewrite String.eqb_refl.
    + now rewrite E.
Qed.

Lemma lookup_set_prop_other (k k' : string) (v : json) (o : obj) :
  k' <> k -> lookup k' (set_prop k v o) = lookup k' o.
Proof.
  intros Hne. induction o as [|[k0 v0] o IH]; simpl.
  - apply String.eqb_neq in Hne. now rewrite Hne.
  - destruct (String.eqb k k0) eqn:E; simpl.
    + apply String.eqb_eq in E. subst k0.
      apply String.eqb_neq in Hne. now rewrite Hne.
    + now rewrite IH.
Qed.

(** A key absent from [b] keeps its value through [{...a, ...b}]. *)
Lemma lookup_spread_absent (k : string) (b a : obj) :
  ~ In k (keys b) -> lookup k (spread a b) = lookup k a.
Proof.
  unfold spread. revert a.
  induction b as [|[k' v'] b IH]; simpl; intros a Hn; [reflexivity|].
  rewrite IH by tauto.
  apply lookup_set_prop_other. intros ->. tauto.
Qed.

(** A key of [b] takes the value [b] gives it. *)
Lemma lookup_spread_present (k : string) (v : json) (b a : obj) :
  NoDup (keys b) -> lookup k b = Some v -> lookup k (spread a b) = Some v.
Proof.
  unfold spread. revert a.
  induction b as [|[k' v'] b IH]; simpl; intros a Hnd Hl; [discriminate|].
  inversion Hnd as [|? ? Hnotin Hnd']; subst.
  destruct (String.eqb k k') eqn:E.
  - apply String.eqb_eq in E. subst k'. injection Hl as ->.
    fold (spread (set_prop k v a) b).
    rewrite lookup_spread_absent by exact Hnotin.
    apply lookup_set_prop_same.
  - now apply IH.
Qed.

(** ** Lookup in the array *)

Lemma has_id_true (id : string) (p : json) :
  has_id id p = Ok true -> exists o, p = JObj o /\ lookup "id" o = Some (JStr id).
Proof.
  destruct p as [| | | | |o|]; try discriminate.
  intros H. exists o. split; [reflexivity|].
  revert H. unfold has_id, bind. simpl.
  destruct (lookup "id" o) as [[| | |s| | |]|]; try discriminate.
  intros H. injection H as H. apply String.eqb_eq in H. now subst.
Qed.

Lemma has_id_of_prop (id : string) (p : json) :
  get_prop p "id" = Ok (Some (JStr id)) -> has_id id p = Ok true.
Proof.
  unfold has_id. intros ->. simpl. now rewrite String.eqb_refl.
Qed.

Lemma has_id_truthy (id : string) (p : json) : has_id id p = Ok true -> truthy p = true.
Proof.
  intros H. apply has_id_true in H as (o & -> & _). reflexivity.
Qed.

Lemma find_app_not_found (id : string) (l l' : list json) :
  find id l = Ok None -> find id (l ++ l') = find id l'.
Proof.
  induction l as [|p l IH]; simpl; [reflexivity|].
  destruct (has_id id p) as [[|]|e]; simpl; try discriminate.
  exact IH.
Qed.

Lemma find_some (id : string) (l : list json) (p : json) :
  find id l = Ok (Some p) -> has_id id p = Ok true.
Proof.
  induction l as [|q l IH]; simpl; [discriminate|].
  destruct (has_id id q) as [[|]|e] eqn:E; simpl; try discriminate.
  - intros H. injection H as <-. exact E.
  - exact IH.
Qed.

(** [findIndex] and [find] agree: the record found is the one at the index. *)
Lemma find_findIndex (id : string) (l : list json) :
  find id l =
  match findIndex id l with
  | Ok (Some i) => Ok (Some (nth i l JNull))
  | Ok None => Ok None
  | Throw e => Throw e
  end.
Proof.
  induction l as [|p l IH]; simpl; [reflexivity|].
  destruct (has_id id p) as [[|]|e]; simpl; try reflexivity.
  rewrite IH. destruct (findIndex id l) as [[i|]|e]; reflexivity.
Qed.

Lemma findIndex_some (id : string) (l : list json) (i : nat) :
  findIndex id l = Ok (Some i) ->
  i < List.length l /\ has_id id (nth i l JNull) = Ok true.
Proof.
  revert i. induction l as [|p l IH]; simpl; intros i; [discriminate|].
  destruct (has_id id p) as [[|]|e] eqn:E; simpl; try discriminate.
  - intros H. injection H as <-. split; [lia | exact E].
  - destruct (findIndex id l) as [[j|]|e]; simpl; try discriminate.
    intros H. injection H as <-.
    destruct (IH j eq_refl) as [Hlt Hid]. split; [lia | exact Hid].
Qed.

Lemma nth_replace_at_same (i : nat) (x : json) (l : list json) :
  i < List.length l -> nth i (replace_at i x l) JNull = x.
Proof.
  revert i. induction l as [|y l IH]; simpl; intros [|i] Hlt; try lia; simpl.
  - reflexivity.
  - apply IH. lia.
Qed.

Lemma nth_error_replace_at_other (i j : nat) (x : json) (l : list json) :
  j <> i -> nth_error (replace_at i x l) j = nth_error l j.
Proof.
  revert i j. induction l as [|y l IH]; simpl; intros [|i] [|j] Hne; simpl;
    try reflexivity; try congruence.
  apply IH. congruence.
Qed.

Lemma has_id_matches (id : string) (p : json) :
  not_null p = true -> has_id id p = Ok (matches id p).
Proof.
  unfold matches. destruct p; try discriminate; intros _; unfold has_id; simpl; reflexivity.
Qed.

Lemma findIndex_absent (id : string) (l : list json) :
  forallb not_null l = true -> count_id id l = 0 -> findIndex id l = Ok None.
Proof.
  unfold count_id. induction l as [|p l IH]; simpl; [reflexivity|].
  intros Hnn Hc. apply andb_prop in Hnn as [Hp Hl].
  rewrite (has_id_matches id p Hp). simpl.
  destruct (matches id p); simpl in *; [discriminate|].
  now rewrite IH.
Qed.

Lemma findIndex_present (id : string) (l : list json) :
  forallb not_null l = true ->
  (findIndex id l = Ok None /\ count_id id l = 0) \/
  (exists i, findIndex id l = Ok (Some i)
             /\ S (count_id id (remove_at i l)) = count_id id l
             /\ forallb not_null (remove_at i l) = true).
Proof.
  unfold count_id. induction l as [|p l IH]; simpl; [now left|].
  intros Hnn. apply andb_prop in Hnn as [Hp Hl].
  rewrite (has_id_matches id p Hp). simpl.
  destruct (matches id p) eqn:M; simpl.
  - right. exists 0. simpl. auto.
  - destruct (IH Hl) as [[-> Hc]|(i & -> & Hc & Hn)]; simpl.
    + now left.
    + right. exists (S i). simpl. rewrite M, Hp, Hn. simpl. auto.
Qed.

(** ** Insert, then look up *)

(** C1, as stated, fails on a store that already holds the id: the lookup
    returns the first record carrying it, which is the older one.  It also
    fails for an object whose id is a number: the id of the route is a string
    and [===] does not convert. *)
Lemma insert_then_getById_duplicate :
  let old := JObj [("id", JStr "abc"); ("coins", JArr [JStr "BTC"])] in
  let p := JObj [("id", JStr "abc"); ("coins", JArr [JStr "ETH"])] in
  let q := JObj [("id", JNum (mkNum false "5" ""))] in
  let st := mkState [old] None in
  (get_prop p "id" = Ok (Some (JStr "abc"))
   /\ snd (post_portfolio WriteOk p st) = Reply 201 p
   /\ get_portfolio "abc" (fst (post_portfolio WriteOk p st)) = Reply 200 old
   /\ get_portfolio "abc" (fst (post_portfolio WriteOk p st)) <> Reply 200 p)
  /\ (snd (post_portfolio WriteOk q (mkState [] None)) = Reply 201 q
      /\ get_portfolio "5" (fst (post_portfolio WriteOk q (mkState [] None))) = not_found).
Proof.
  cbv zeta. repeat split; try reflexivity.
  intros H. discriminate H.
Qed.

(** C1, amended: when the id of the inserted object is a string that the
    store does not hold yet (looking it up reports not-found), inserting the
    object and looking its id up returns the object, whether the write to the
    file succeeds or not. *)
Theorem insert_then_getById (w : fs_write) (p : json) (id : string) (st : state) :
  get_prop p "id" = Ok (Some (JStr id)) ->
  get_portfolio id st = not_found ->
  get_portfolio id (fst (post_portfolio w p st)) = Reply 200 p.
Proof.
  intros Hid Hnf.
  assert (Hfind : find id (portfolios st) = Ok None).
  { revert Hnf. unfold get_portfolio.
    destruct (find id (portfolios st)) as [[q|]|e] eqn:F; try discriminate; [|reflexivity].
    rewrite (has_id_truthy id q (find_some _ _ _ F)). discriminate. }
  unfold get_portfolio, post_portfolio.
  destruct w; simpl;
    rewrite (find_app_not_found id _ [p] Hfind); simpl;
    rewrite (has_id_of_prop id p Hid); simpl;
    now rewrite (has_id_truthy id p (has_id_of_prop id p Hid)).
Qed.

Lemma insert_then_getById_witness :
  get_portfolio "abc"
    (fst (post_portfolio WriteOk (JObj [("id", JStr "abc"); ("coins", JArr [JStr "BTC"])])
            (mkState [] None)))
  = Reply 200 (JObj [("id", JStr "abc"); ("coins", JArr [JStr "BTC"])]).
Proof.
  apply (insert_then_getById WriteOk
           (JObj [("id", JStr "abc"); ("coins", JArr [JStr "BTC"])]) "abc" (mkState [] None));
    reflexivity.
Defined.

(** ** Remove, then look up *)

(** C2, as stated, fails on a store that holds the id twice: one removal
    takes the first record away, the second one is still found and a second
    removal succeeds.  It also fails on a store with a [null] entry, where
    the search itself throws. *)
Lemma remove_then_getById_duplicate :
  let r1 := JObj [("id", JStr "abc"); ("coins", JArr [JStr "BTC"])] in
  let r2 := JObj [("id", JStr "abc"); ("coins", JArr [JStr "ETH"])] in
  let deleted := Reply 200 (JObj [("message", JStr "Portfolio deleted successfully")]) in
  let st := mkState [r1; r2] None in
  let st' := fst (delete_portfolio WriteOk "abc" st) in
  (snd (delete_portfolio WriteOk "abc" st) = deleted
   /\ get_portfolio "abc" st' = Reply 200 r2
   /\ snd (delete_portfolio WriteOk "abc" st') = deleted)
  /\ (snd (delete_portfolio WriteOk "abc" (mkState [JNull] None)) = Unhandled TypeError
      /\ get_portfolio "abc" (fst (delete_portfolio WriteOk "abc" (mkState [JNull] None)))
         = Unhandled TypeError).
Proof.
  cbv zeta. repeat split; reflexivity.
Qed.

(** C2, amended: on a store without [null] entries that holds the id at most
    once, looking the id up after a removal reports not-found, and so does a
    second removal. *)
Theorem remove_then_getById (w w' : fs_write) (id : string) (st : state) :
  forallb not_null (portfolios st) = true ->
  count_id id (portfolios st) <= 1 ->
  get_portfolio id (fst (delete_portfolio w id st)) = not_found
  /\ snd (delete_portfolio w' id (fst (delete_portfolio w id st))) = not_found.
Proof.
  intros Hnn Hc.
  assert (Hgone : findIndex id (portfolios (fst (delete_portfolio w id st))) = Ok None).
  { unfold delete_portfolio.
    destruct (findIndex_present id (portfolios st) Hnn) as [[Hf H0]|(i & Hf & Hs & Hn)];
      rewrite Hf; simpl.
    - exact Hf.
    - destruct w; simpl; apply findIndex_absent; auto; lia. }
  split.
  - unfold get_portfolio. rewrite find_findIndex, Hgone. reflexivity.
  - unfold delete_portfolio at 1. rewrite Hgone. reflexivity.
Qed.

Lemma remove_then_getById_witness :
  get_portfolio "abc"
    (fst (delete_portfolio WriteOk "abc"
            (mkState [JObj [("id", JStr "abc"); ("coins", JArr [JStr "BTC"])]] None)))
  = not_found
  /\ snd (delete_portfolio WriteOk "abc"
            (fst (delete_portfolio WriteOk "abc"
                    (mkState [JObj [("id", JStr "abc"); ("coins", JArr [JStr "BTC"])]] None))))
     = not_found.
Proof.
  apply (remove_then_getById WriteOk WriteOk "abc"
           (mkState [JObj [("id", JStr "abc"); ("coins", JArr [JStr "BTC"])]] None)).
  - reflexivity.
  - vm_compute. lia.
Defined.

(** ** Updates *)

Lemma nth_replace_at_other (i j : nat) (x : json) (l : list json) :
  j <> i -> nth j (replace_at i x l) JNull = nth j l JNull.
Proof.
  revert i j. induction l as [|y l IH]; simpl; intros [|i] [|j] Hne; simpl;
    try reflexivity; try congruence.
  apply IH. congruence.
Qed.

Lemma patch_field_other (k k' : string) (body : obj) (r : json) :
  k' <> k -> get_prop (patch_field k body r) k' = get_prop r k'.
Proof.
  intros Hne. unfold patch_field.
  destruct (lookup k body) as [v|]; [|reflexivity].
  destruct (truthy v); [|reflexivity].
  destruct r; simpl; try reflexivity.
  now rewrite lookup_set_prop_other.
Qed.

Lemma patch_field_same (k : string) (body o : obj) (v : json) :
  lookup k body = Some v -> truthy v = true ->
  get_prop (patch_field k body (JObj o)) k = Ok (Some v).
Proof.
  intros Hl Ht. unfold patch_field. rewrite Hl, Ht. simpl.
  now rewrite lookup_set_prop_same.
Qed.

Lemma patch_field_obj (k : string) (body o : obj) :
  exists o', patch_field k body (JObj o) = JObj o'.
Proof.
  unfold patch_field. destruct (lookup k body) as [v|]; [|eauto].
  destruct (truthy v); simpl; eauto.
Qed.

(** The array after a [PATCH] that found its record. *)
Lemma patch_portfolio_portfolios (w : fs_write) (id : string) (body : obj) (st : state) (i : nat) :
  findIndex id (portfolios st) = Ok (Some i) ->
  portfolios (fst (patch_portfolio w id body st)) =
  replace_at i
    (patch_field "values" body
       (patch_field "coins" body (patch_field "analysis" body (nth i (portfolios st) JNull))))
    (portfolios st).
Proof.
  intros Hf. unfold patch_portfolio. rewrite Hf. destruct w; reflexivity.
Qed.

(** The array after a [PUT] that found its record. *)
Lemma put_portfolio_portfolios (w : fs_write) (id : string) (body : obj) (st : state) (i : nat) :
  findIndex id (portfolios st) = Ok (Some i) ->
  portfolios (fst (put_portfolio w id body st)) =
  replace_at i (JObj (spread (own_props (nth i (portfolios st) JNull)) body)) (portfolios st).
Proof.
  intros Hf. unfold put_portfolio. rewrite Hf. destruct w; reflexivity.
Qed.

(** C3, as stated, fails for a key whose value in the body is falsy: the
    guard [if (values)] skips the assignment. *)
Lemma patch_skips_falsy_value :
  let zero := JNum (mkNum false "0" "") in
  let hundred := JArr [JNum (mkNum false "100" "")] in
  let st := mkState [JObj [("id", JStr "abc"); ("values", hundred)]] None in
  let body := [("values", zero)] in
  lookup "values" body = Some zero
  /\ get_prop (nth 0 (portfolios (fst (patch_portfolio WriteOk "abc" body st))) JNull) "values"
     = Ok (Some hundred)
  /\ get_prop (nth 0 (portfolios (fst (patch_portfolio WriteOk "abc" body st))) JNull) "values"
     <> Ok (Some zero).
Proof.
  cbv zeta. repeat split; try reflexivity.
  intros H. discriminate H.
Qed.

(** C3, amended: each of the keys [analysis], [coins] and [values] that the
    body of a [PATCH] carries with a truthy value (anything but [null],
    [false], [0] and the empty string) becomes the value of that field of the
    record. *)
Theorem patch_applies_truthy_keys
  (w : fs_write) (id : string) (body : obj) (st : state) (i : nat) (k : string) (v : json) :
  findIndex id (portfolios st) = Ok (Some i) ->
  whitelisted k = true ->
  lookup k body = Some v ->
  truthy v = true ->
  get_prop (nth i (portfolios (fst (patch_portfolio w id body st))) JNull) k = Ok (Some v).
Proof.
  intros Hf Hk Hl Ht.
  rewrite (patch_portfolio_portfolios w id body st i Hf).
  destruct (findIndex_some _ _ _ Hf) as [Hlt Hid].
  rewrite nth_replace_at_same by exact Hlt.
  destruct (has_id_true _ _ Hid) as (o & -> & _).
  destruct (patch_field_obj "analysis" body o) as [o1 E1].
  destruct (patch_field_obj "coins" body o1) as [o2 E2].
  unfold whitelisted in Hk.
  destruct (String.eqb_spec k "analysis") as [->|_].
  { rewrite !patch_field_other by discriminate. now apply patch_field_same. }
  destruct (String.eqb_spec k "coins") as [->|_].
  { rewrite patch_field_other by discriminate. rewrite E1. now apply patch_field_same. }
  destruct (String.eqb_spec k "values") as [->|_]; [|discriminate].
  rewrite E1, E2. now apply patch_field_same.
Qed.

Lemma patch_applies_truthy_keys_witness :
  get_prop
    (nth 0 (portfolios
              (fst (patch_portfolio WriteOk "abc" [("values", JArr [JNum (mkNum false "100" "")])]
                      (mkState [JObj [("id", JStr "abc"); ("coins", JArr [JStr "BTC"])]] None))))
       JNull) "values"
  = Ok (Some (JArr [JNum (mkNum false "100" "")])).
Proof.
  apply (patch_applies_truthy_keys WriteOk "abc" [("values", JArr [JNum (mkNum false "100" "")])]
           (mkState [JObj [("id", JStr "abc"); ("coins", JArr [JStr "BTC"])]] None) 0 "values");
    reflexivity.
Defined.

(** C4: a [PATCH] leaves every field of the record outside [analysis],
    [coins] and [values] as it was, a [PUT] gives the keys of its body the
    values of the body and leaves every other key of the record as it was;
    neither touches another record. *)
Theorem update_frame
  (w : fs_write) (id : string) (body : obj) (st : state) (i : nat) :
  findIndex id (portfolios st) = Ok (Some i) ->
  let before := nth i (portfolios st) JNull in
  let patched := portfolios (fst (patch_portfolio w id body st)) in
  let put := portfolios (fst (put_portfolio w id body st)) in
  (forall k, whitelisted k = false -> get_prop (nth i patched JNull) k = get_prop before k)
  /\ (forall j, j <> i -> nth_error patched j = nth_error (portfolios st) j)
  /\ (forall k, ~ In k (keys body) -> get_prop (nth i put JNull) k = get_prop before k)
  /\ (NoDup (keys body) ->
      forall k v, lookup k body = Some v -> get_prop (nth i put JNull) k = Ok (Some v))
  /\ (forall j, j <> i -> nth_error put j = nth_error (portfolios st) j).
Proof.
  intros Hf before patched put. subst before patched put.
  rewrite (patch_portfolio_portfolios w id body st i Hf).
  rewrite (put_portfolio_portfolios w id body st i Hf).
  destruct (findIndex_some _ _ _ Hf) as [Hlt Hid].
  rewrite !nth_replace_at_same by exact Hlt.
  destruct (has_id_true _ _ Hid) as (o & Ho & _). rewrite Ho. simpl own_props.
  repeat split.
  - intros k Hk. unfold whitelisted in Hk.
    apply orb_false_elim in Hk as [Hk Hv]. apply orb_false_elim in Hk as [Ha Hc].
    apply String.eqb_neq in Ha, Hc, Hv.
    now rewrite !patch_field_other by assumption.
  - intros j Hj. now apply nth_error_replace_at_other.
  - intros k Hk. simpl. now rewrite lookup_spread_absent.
  - intros Hnd k v Hl. simpl. now rewrite (lookup_spread_present k v).
  - intros j Hj. now apply nth_error_replace_at_other.
Qed.

Lemma update_frame_witness :
  let st := mkState [JObj [("id", JStr "abc"); ("coins", JArr [JStr "BTC"])]; JObj [("id", JStr "x")]]
              None in
  let body := [("values", JArr [JNum (mkNum false "100" "")])] in
  let before := nth 0 (portfolios st) JNull in
  let patched := portfolios (fst (patch_portfolio WriteOk "abc" body st)) in
  let put := portfolios (fst (put_portfolio WriteOk "abc" body st)) in
  (forall k, whitelisted k = false -> get_prop (nth 0 patched JNull) k = get_prop before k)
  /\ (forall j, j <> 0 -> nth_error patched j = nth_error (portfolios st) j)
  /\ (forall k, ~ In k (keys body) -> get_prop (nth 0 put JNull) k = get_prop before k)
  /\ (NoDup (keys body) ->
      forall k v, lookup k body = Some v -> get_prop (nth 0 put JNull) k = Ok (Some v))
  /\ (forall j, j <> 0 -> nth_error put j = nth_error (portfolios st) j).
Proof.
  apply (update_frame WriteOk "abc" [("values", JArr [JNum (mkNum false "100" "")])]
           (mkState [JObj [("id", JStr "abc"); ("coins", JArr [JStr "BTC"])]; JObj [("id", JStr "x")]]
              None) 0).
  reflexivity.
Defined.

(** C10: a [PUT] whose body carries an [id] gives the record that id.  When
    the new id differs from the one in the route, looking the old id up no
    longer returns the record; when another record already has the new id,
    the store then holds that id twice. *)
Theorem put_replaces_id
  (w : fs_write) (id : string) (body : obj) (st : state) (i : nat) (v : json) :
  findIndex id (portfolios st) = Ok (Some i) ->
  NoDup (keys body) ->
  lookup "id" body = Some v ->
  let st' := fst (put_portfolio w id body st) in
  get_prop (nth i (portfolios st') JNull) "id" = Ok (Some v)
  /\ (v <> JStr id -> get_portfolio id st' <> Reply 200 (nth i (portfolios st') JNull))
  /\ (forall j s, j <> i -> has_id s (nth j (portfolios st) JNull) = Ok true -> v = JStr s ->
      has_id s (nth i (portfolios st') JNull) = Ok true
      /\ has_id s (nth j (portfolios st') JNull) = Ok true).
Proof.
  intros Hf Hnd Hl st'. subst st'.
  rewrite (put_portfolio_portfolios w id body st i Hf).
  destruct (findIndex_some _ _ _ Hf) as [Hlt Hid].
  rewrite !nth_replace_at_same by exact Hlt.
  assert (Hnew : get_prop (JObj (spread (own_props (nth i (portfolios st) JNull)) body)) "id"
                 = Ok (Some v)).
  { simpl. now rewrite (lookup_spread_present "id" v). }
  repeat split.
  - exact Hnew.
  - intros Hv Hget. unfold get_portfolio in Hget.
    rewrite (put_portfolio_portfolios w id body st i Hf) in Hget.
    destruct (find id _) as [[q|]|e] eqn:F; try discriminate.
    destruct (truthy q); try discriminate.
    injection Hget as ->.
    apply find_some, has_id_true in F as (o & Ho & Hq).
    injection Ho as <-. simpl in Hnew. congruence.
  - subst v. apply has_id_of_prop. exact Hnew.
  - rewrite nth_replace_at_other by assumption. assumption.
Qed.

Lemma put_replaces_id_witness :
  let st := mkState [JObj [("id", JStr "a"); ("coins", JArr [JStr "BTC"])];
                     JObj [("id", JStr "b"); ("coins", JArr [JStr "ETH"])]] None in
  let st' := fst (put_portfolio WriteOk "a" [("id", JStr "b")] st) in
  get_prop (nth 0 (portfolios st') JNull) "id" = Ok (Some (JStr "b"))
  /\ get_portfolio "a" st' <> Reply 200 (nth 0 (portfolios st') JNull)
  /\ has_id "b" (nth 0 (portfolios st') JNull) = Ok true
  /\ has_id "b" (nth 1 (portfolios st') JNull) = Ok true.
Proof.
  destruct (put_replaces_id WriteOk "a" [("id", JStr "b")]
              (mkState [JObj [("id", JStr "a"); ("coins", JArr [JStr "BTC"])];
                        JObj [("id", JStr "b"); ("coins", JArr [JStr "ETH"])]] None)
              0 (JStr "b"))
    as (H1 & H2 & H3).
  - reflexivity.
  - repeat constructor; simpl; tauto.
  - reflexivity.
  - cbv zeta. split; [exact H1|]. split.
    + apply H2. discriminate.
    + apply (H3 1 "b"); [discriminate | reflexivity | reflexivity].
Defined.

(** ** Persistence failures *)

(** C7: [POST /portfolios] appends the object to the array, then saves.  The
    text written is that of the array with the object in it; when the write
    fails the array keeps the object and the reply is a 500. *)
Theorem insert_without_rollback (p : json) (st : state) :
  post_portfolio WriteOk p st =
    (mkState (portfolios st ++ [p]) (Some (saved_text (portfolios st ++ [p]))), Reply 201 p)
  /\ forall code leftover,
       post_portfolio (WriteFails code leftover) p st =
         (mkState (portfolios st ++ [p]) leftover,
          Reply 500 (error_body "Failed to save new portfolio")).
Proof.
  split; [reflexivity | intros; reflexivity].
Qed.

(** A request that finds no record changes nothing. *)
Lemma update_not_found (w : fs_write) (id : string) (body : obj) (st : state) :
  findIndex id (portfolios st) = Ok None ->
  put_portfolio w id body st = (st, not_found)
  /\ patch_portfolio w id body st = (st, not_found)
  /\ delete_portfolio w id st = (st, not_found).
Proof.
  intros H. unfold put_portfolio, patch_portfolio, delete_portfolio. rewrite H. auto.
Qed.


(** ** Startup *)

(** C8: when the file cannot be read, or its text is not JSON, the array is
    empty after startup; [startup] is a total function, nothing is thrown. *)
Theorem startup_missing_or_corrupt (file : option text) :
  file = None \/ (exists data, file = Some data /\ JSON_parse data = None) ->
  startup file = JArr [].
Proof.
  intros [->|(data & -> & Hp)]; unfold startup, loadPortfolios; [reflexivity|].
  now rewrite Hp.
Qed.

Lemma startup_missing_or_corrupt_witness :
  startup None = JArr [] /\ startup (Some (txt "{ portfolios: [")) = JArr [].
Proof.
  split.
  - apply (startup_missing_or_corrupt None). left. reflexivity.
  - apply (startup_missing_or_corrupt (Some (txt "{ portfolios: ["))).
    right. exists (txt "{ portfolios: ["). split; reflexivity.
Defined.

(** ** Forwarding a prediction request *)

(** The 400 reply is sent exactly when [historical_data] is missing or is not
    an array. *)
Lemma post_predictions_400 (flask : json -> res json) (coinId : string) (body : json) :
  body <> JNull ->
  post_predictions flask coinId body = Reply 400 (error_body "Invalid or missing historical_data")
  <-> (forall l, get_prop body "historical_data" <> Ok (Some (JArr l))).
Proof.
  intros Hb. unfold post_predictions.
  destruct (get_prop body "historical_data") as [[h|]|e] eqn:G.
  - destruct h as [| | | |items| |];
      try (simpl isArray; rewrite orb_true_r; split; [intros _ l; discriminate | reflexivity]).
    simpl. split; [|intros H; now elim (H items)].
    destruct (flask _) as [d|e]; [destruct (has_slice d)|]; discriminate.
  - split; [intros _ l; discriminate | reflexivity].
  - destruct body; simpl in G; try discriminate. now elim Hb.
Qed.

(** An array is forwarded as [{ historical_data }]; a body of the service
    that is an array or a string comes back unchanged, a failed call gives a
    500. *)
Lemma post_predictions_forward
  (flask : json -> res json) (coinId : string) (body : json) (l : list json) :
  get_prop body "historical_data" = Ok (Some (JArr l)) ->
  post_predictions flask coinId body =
  match flask (JObj [("historical_data", JArr l)]) with
  | Ok data =>
      if has_slice data then Reply 200 data
      else Reply 500 (error_body "Failed to fetch predictions from Flask")
  | Throw _ => Reply 500 (error_body "Failed to fetch predictions from Flask")
  end.
Proof.
  intros G. unfold post_predictions. rewrite G. reflexivity.
Qed.

(** C6 at a body of the prediction service that is a JSON object: the call
    succeeded, yet the handler replies 500, because logging
    [flaskResponse.data.slice (0, 5)] throws on a value without [slice]. *)
Theorem post_predictions_object_payload :
  let payload := JObj [("predictions", JArr [JNum (mkNum false "1" "")])] in
  post_predictions (fun _ => Ok payload) "btc" (JObj [("historical_data", JArr [])])
  = Reply 500 (error_body "Failed to fetch predictions from Flask").
Proof. reflexivity. Qed.

(** ** Calendar arithmetic *)

Section Calendar.
Import Dates.
Local Open Scope Z_scope.

(** [YearFromDay] finds the year the day falls in. *)
Lemma YearFromDay_spec (d : Z) :
  DayFromYear (YearFromDay d) <= d < DayFromYear (YearFromDay d + 1).
Proof.
  unfold YearFromDay.
  set (y0 := 1970 + d * 400 / 146097).
  assert (H0 : DayFromYear (y0 - 1) <= d < DayFromYear (y0 + 2)).
  { unfold DayFromYear, y0. Z.div_mod_to_equations. lia. }
  destruct (Z.ltb_spec d (DayFromYear y0)).
  - replace (y0 - 1 + 1) with y0 by lia. lia.
  - destruct (Z.leb_spec (DayFromYear (y0 + 1)) d).
    + replace (y0 + 1 + 1) with (y0 + 2) by lia. lia.
    + lia.
Qed.

Lemma DaysInYear_diff (y : Z) : DayFromYear (y + 1) - DayFromYear y = DaysInYear y.
Proof.
  unfold DayFromYear, DaysInYear.
  destruct (Z.eqb_spec (y mod 4) 0); destruct (Z.eqb_spec (y mod 100) 0);
    destruct (Z.eqb_spec (y mod 400) 0); cbn [negb];
    Z.div_mod_to_equations; lia.
Qed.

Lemma DayFromYear_mono (y y' : Z) : y <= y' -> DayFromYear y <= DayFromYear y'.
Proof.
  intros H. unfold DayFromYear. Z.div_mod_to_equations. lia.
Qed.

Lemma InLeapYear_cases (y : Z) :
  (InLeapYear y = 0 /\ DaysInYear y = 365) \/ (InLeapYear y = 1 /\ DaysInYear y = 366).
Proof.
  unfold InLeapYear, DaysInYear.
  destruct (negb (y mod 4 =? 0)); [now left|].
  destruct (negb (y mod 100 =? 0)); [now right|].
  destruct (negb (y mod 400 =? 0)); [now left|now right].
Qed.

(** The civil date of a time value: the year is the one its day falls in,
    month and day of the month are in range, and counting the days back from
    them gives the day number. *)
Lemma civil_spec (t : Z) :
  let '(y, m, d) := civil t in
  DayFromYear y <= Day t < DayFromYear (y + 1)
  /\ 1 <= m <= 12
  /\ 1 <= d <= 31
  /\ DayFromYear y + MonthStart (m - 1) (InLeapYear y) + (d - 1) = Day t.
Proof.
  unfold civil.
  pose proof (YearFromDay_spec (Day t)) as Hy.
  generalize dependent (Day t). intros day.
  generalize (YearFromDay day). intros yr Hy.
  pose proof (DaysInYear_diff yr) as Hd.
  generalize dependent (DayFromYear (yr + 1)). intros D1.
  generalize dependent (DayFromYear yr). intros D0 Hy Hd.
  destruct (InLeapYear_cases yr) as [[-> Hl]|[-> Hl]]; rewrite Hl in Hd;
    unfold DateFromDay, MonthFromDay;
    repeat match goal with
           | |- context [?a <? ?b] => destruct (Z.ltb_spec a b)
           end; cbn; lia.
Qed.

Lemma four_digit_year_range (t : Z) :
  four_digit_year t = true -> 0 <= YearFromDay (Day t) <= 9999.
Proof.
  unfold four_digit_year. intros H. apply andb_prop in H as [Hlo Hhi].
  apply Z.leb_le in Hlo, Hhi.
  pose proof (YearFromDay_spec (Day t)) as Hy.
  assert (Hd : -719528 <= Day t <= 2932896).
  { unfold Day, msPerDay. Z.div_mod_to_equations. lia. }
  set (yr := YearFromDay (Day t)) in *.
  split.
  - destruct (Z.le_gt_cases 0 yr) as [|Hneg]; [assumption|].
    pose proof (DayFromYear_mono (yr + 1) 0 ltac:(lia)) as Hm.
    change (DayFromYear 0) with (-719528) in Hm. lia.
  - destruct (Z.le_gt_cases yr 9999) as [|Hbig]; [assumption|].
    pose proof (DayFromYear_mono 10000 yr ltac:(lia)) as Hm.
    change (DayFromYear 10000) with 2932897 in Hm. lia.
Qed.

Lemma four_digit_year_valid (t : Z) : four_digit_year t = true -> valid_time t = true.
Proof.
  unfold four_digit_year, valid_time. intros H. apply andb_prop in H as [Hlo Hhi].
  apply Z.leb_le in Hlo, Hhi. apply Z.leb_le. lia.
Qed.

Lemma digit_cases (n : Z) :
  In (digit n) (map digit [0; 1; 2; 3; 4; 5; 6; 7; 8; 9]).
Proof.
  unfold digit at 1.
  assert (H : 0 <= n mod 10 < 10) by (apply Z.mod_pos_bound; lia).
  assert (C : n mod 10 = 0 \/ n mod 10 = 1 \/ n mod 10 = 2 \/ n mod 10 = 3 \/ n mod 10 = 4
              \/ n mod 10 = 5 \/ n mod 10 = 6 \/ n mod 10 = 7 \/ n mod 10 = 8 \/ n mod 10 = 9)
    by lia.
  repeat (destruct C as [->|C]; [simpl; tauto|]). rewrite C. simpl. tauto.
Qed.

Lemma digit_is_digit (n : Z) : is_digit (digit n) = true.
Proof.
  pose proof (digit_cases n) as H. simpl in H.
  repeat (destruct H as [<-|H]; [reflexivity|]). contradiction.
Qed.

Lemma digit_not_T (n : Z) : Ascii.eqb (digit n) "T" = false.
Proof.
  pose proof (digit_cases n) as H. simpl in H.
  repeat (destruct H as [<-|H]; [reflexivity|]). contradiction.
Qed.

Lemma before_T_app (a r : text) :
  forallb (fun c => negb (Ascii.eqb c "T")) a = true -> before_T (a ++ "T"%char :: r) = a.
Proof.
  induction a as [|c a IH]; simpl; intros H; [reflexivity|].
  apply andb_prop in H as [Hc Ha]. apply negb_true_iff in Hc. rewrite Hc.
  now rewrite IH.
Qed.

(** [toISOString ().split ('T')[0]] is the date part of the string. *)
Lemma before_T_date (t : Z) (r : text) : before_T (date_text t ++ "T"%char :: r) = date_text t.
Proof.
  apply before_T_app. unfold date_text.
  destruct (civil t) as [[y m] d].
  unfold year_text, pad6, pad4, pad2.
  destruct ((0 <=? y) && (y <=? 9999)); [|destruct (y <? 0)]; simpl;
    rewrite !digit_not_T; reflexivity.
Qed.

Lemma date_text_four_digits (t : Z) :
  four_digit_year t = true -> string_of_list_ascii (date_text t) = calendar_day t.
Proof.
  intros H. apply four_digit_year_range in H.
  unfold date_text, calendar_day, civil, year_text.
  destruct (Z.leb_spec 0 (YearFromDay (Day t))); [|lia].
  destruct (Z.leb_spec (YearFromDay (Day t)) 9999); [|lia].
  reflexivity.
Qed.

Lemma calendar_day_shape (t : Z) : YYYY_MM_DD (calendar_day t) = true.
Proof.
  unfold calendar_day, YYYY_MM_DD. destruct (civil t) as [[y m] d].
  rewrite list_ascii_of_string_of_list_ascii.
  unfold pad4, pad2. simpl. now rewrite !digit_is_digit.
Qed.

End Calendar.

(** ** Doubles that are whole numbers *)

Section Exact.
Import Binary64.
Local Open Scope Z_scope.

Lemma nearest_even_exact (a q : Z) : 0 < q -> nearest_even (a * q) q = a.
Proof.
  intros Hq. unfold nearest_even.
  rewrite Z.div_mul, Z.mod_mul by lia.
  destruct (Z.ltb_spec (2 * 0) q); [reflexivity|lia].
Qed.

Lemma floor_log2_dyadic (a k : Z) :
  0 < a -> 0 <= k -> floor_log2 (a * 2 ^ k) (2 ^ k) = Z.log2 a.
Proof.
  intros Ha Hk. unfold floor_log2.
  rewrite Z.log2_mul_pow2, Z.log2_pow2 by lia.
  replace (k + Z.log2 a - k) with (Z.log2 a) by lia.
  pose proof (Z.log2_nonneg a) as Hl.
  unfold scale2. destruct (Z.leb_spec 0 (Z.log2 a)); [|lia].
  pose proof (Z.log2_spec a Ha) as [Hlo _].
  assert (Hp : 0 < 2 ^ k) by (apply Z.pow_pos_nonneg; lia).
  destruct (Z.leb_spec (2 ^ k * 2 ^ Z.log2 a) (a * 2 ^ k)); [reflexivity|nia].
Qed.

(** A whole number below [2 ^ 53], given as a fraction with a power of two
    for denominator, is a double: rounding changes nothing. *)
Lemma round_dyadic (a k : Z) :
  0 < a < 2 ^ 53 -> 0 <= k ->
  exists d j, round (a * 2 ^ k) (2 ^ k) = Some d /\ 0 <= j /\ fraction d = (a * 2 ^ j, 2 ^ j).
Proof.
  intros [Ha Hlt] Hk. unfold round.
  assert (Hp : 0 < 2 ^ k) by (apply Z.pow_pos_nonneg; lia).
  destruct (Z.eqb_spec (a * 2 ^ k) 0) as [E|_]; [nia|].
  rewrite (floor_log2_dyadic a k Ha Hk).
  pose proof (Z.log2_nonneg a) as Hl0.
  assert (Hl : Z.log2 a < 53) by (apply Z.log2_lt_pow2; lia).
  pose proof (Z.log2_spec a Ha) as [Hlo Hhi].
  set (L := Z.log2 a) in *.
  replace (Z.max (L - 52) (-1074)) with (L - 52) by lia.
  set (j := 52 - L).
  assert (Hj : 0 <= j) by (unfold j; lia).
  assert (Hpj : 0 < 2 ^ j) by (apply Z.pow_pos_nonneg; lia).
  assert (Hm : a * 2 ^ j < 2 ^ 53).
  { replace 53 with (Z.succ L + j) by (unfold j; lia).
    rewrite Z.pow_add_r by lia. nia. }
  assert (Hne : nearest_even
                  (fst (scale2 (a * 2 ^ k) (2 ^ k) (L - 52)))
                  (snd (scale2 (a * 2 ^ k) (2 ^ k) (L - 52))) = a * 2 ^ j).
  { unfold scale2. destruct (Z.leb_spec 0 (L - 52)).
    - assert (L = 52) by lia. cbn [fst snd].
      replace (L - 52) with 0 by lia. replace j with 0 by (unfold j; lia).
      rewrite !Z.pow_0_r, !Z.mul_1_r. now apply nearest_even_exact.
    - cbn [fst snd]. replace (- (L - 52)) with j by (unfold j; lia).
      replace (a * 2 ^ k * 2 ^ j) with (a * 2 ^ j * 2 ^ k) by ring.
      now apply nearest_even_exact. }
  destruct (scale2 (a * 2 ^ k) (2 ^ k) (L - 52)) as [x y]. cbn [fst snd] in Hne.
  rewrite Hne.
  destruct (Z.eqb_spec (a * 2 ^ j) (2 ^ 53)) as [E|_]; [lia|].
  destruct (Z.ltb_spec 971 (L - 52)); [lia|].
  exists (a * 2 ^ j, L - 52), j. split; [reflexivity|]. split; [exact Hj|].
  unfold fraction. destruct (Z.leb_spec 0 (L - 52)).
  - replace (L - 52) with 0 by lia. replace j with 0 by (unfold j; lia).
    now rewrite !Z.pow_0_r, !Z.mul_1_r.
  - now replace (- (L - 52)) with j by (unfold j; lia).
Qed.

End Exact.

(** ** Time stamps in whole seconds *)

Section Seconds.
Local Open Scope Z_scope.

Lemma is_digit_value (c : ascii) :
  is_digit c = true -> 0 <= Z.of_N (N_of_ascii c) - 48 <= 9.
Proof.
  destruct c as [[] [] [] [] [] [] [] []]; intros H; try discriminate H; cbn; lia.
Qed.

Lemma Z_of_digits_snoc (d : text) (c : ascii) :
  Z_of_digits (d ++ [c]) = 10 * Z_of_digits d + (Z.of_N (N_of_ascii c) - 48).
Proof.
  unfold Z_of_digits. now rewrite fold_left_app.
Qed.

Lemma Z_of_digits_nonneg (d : text) : forallb is_digit d = true -> 0 <= Z_of_digits d.
Proof.
  induction d as [|c d IH] using rev_ind; intros H; [reflexivity|].
  rewrite forallb_app in H. apply andb_prop in H as [Hd Hc]. simpl in Hc.
  rewrite andb_true_r in Hc. apply is_digit_value in Hc.
  rewrite Z_of_digits_snoc. specialize (IH Hd). lia.
Qed.

(** On a whole number of seconds the product with 1000 is exact: the time
    value is that many milliseconds. *)
Lemma millis_seconds (n : number) (t : Z) :
  seconds n = Some t -> 1000 * Z.abs t < 2 ^ 53 -> millis n = Some (1000 * t).
Proof.
  destruct n as [sg i f|sg]; [|discriminate]. unfold seconds.
  destruct (plain sg (txt i) (txt f)) eqn:Hp; [|discriminate].
  destruct (String.eqb_spec f "") as [->|]; [|discriminate]. cbn [andb].
  intros H Ht. injection H as <-.
  assert (H0 : 0 <= Z_of_digits (txt i)).
  { apply Z_of_digits_nonneg. unfold plain in Hp.
    apply andb_prop in Hp as [Hp _]. apply andb_prop in Hp as [Hp _].
    apply andb_prop in Hp as [Hp _]. now apply andb_prop in Hp as [Hp _]. }
  set (T := Z_of_digits (txt i)) in *.
  assert (HT : 1000 * T < 2 ^ 53) by (destruct sg; lia).
  unfold millis, double_of. change (txt "") with (@nil ascii).
  rewrite app_nil_r. fold T. cbn [List.length Z.of_nat Z.opp].
  unfold Binary64.decimal. cbn [Z.leb Z.compare].
  rewrite Z.pow_0_r, Z.mul_1_r.
  destruct (Z.eq_dec T 0) as [E0|Hne].
  - rewrite E0. cbn [Binary64.round Z.eqb option_map Binary64.fraction Z.leb Z.compare].
    cbn [Z.mul]. cbn [Binary64.round Z.eqb Binary64.fraction Z.leb Z.compare].
    rewrite Z.div_0_l by (apply Z.pow_nonzero; lia). now destruct sg.
  - destruct (round_dyadic T 0) as (d & j & Hd & Hj & Hf); [lia|lia|].
    rewrite Z.pow_0_r, Z.mul_1_r in Hd. rewrite Hd. cbn [option_map].
    rewrite Hf.
    destruct (round_dyadic (1000 * T) j) as (d' & j' & Hd' & Hj' & Hf'); [lia|lia|].
    replace (1000 * (T * 2 ^ j)) with (1000 * T * 2 ^ j) by ring.
    rewrite Hd', Hf'.
    rewrite Z.div_mul by (apply Z.pow_nonzero; lia).
    destruct sg; f_equal; lia.
Qed.

End Seconds.

(** ** The calendar of [toISOString] is the Gregorian calendar *)

Section GregorianDates.
Import Dates.
Local Open Scope Z_scope.

Lemma year_start_DayFromYear (y : Z) : Gregorian.year_start y = DayFromYear y.
Proof.
  unfold Gregorian.year_start, Gregorian.leaps_before, DayFromYear.
  Z.div_mod_to_equations. lia.
Qed.

Lemma leap_DaysInYear (y : Z) :
  (Gregorian.leap y = true /\ InLeapYear y = 1 /\ DaysInYear y = 366)
  \/ (Gregorian.leap y = false /\ InLeapYear y = 0 /\ DaysInYear y = 365).
Proof.
  unfold Gregorian.leap, InLeapYear, DaysInYear.
  destruct (y mod 4 =? 0); destruct (y mod 100 =? 0); destruct (y mod 400 =? 0); cbn; tauto.
Qed.

(** The date [civil] computes is a date of the calendar, and it is the date
    with the day number of the time value. *)
Lemma civil_gregorian (t : Z) :
  let '(y, m, d) := civil t in
  Gregorian.date y m d = true /\ Gregorian.day_number y m d = Day t.
Proof.
  unfold civil, Gregorian.day_number, Gregorian.date.
  pose proof (YearFromDay_spec (Day t)) as Hy.
  generalize dependent (Day t). intros day.
  generalize (YearFromDay day). intros yr Hy.
  pose proof (DaysInYear_diff yr) as Hd.
  rewrite year_start_DayFromYear.
  generalize dependent (DayFromYear (yr + 1)). intros D1.
  generalize dependent (DayFromYear yr). intros D0 Hy Hd.
  unfold Gregorian.month_length.
  destruct (leap_DaysInYear yr) as [(Hl & -> & E)|(Hl & -> & E)]; rewrite E in Hd;
    rewrite Hl; unfold DateFromDay, MonthFromDay;
    repeat match goal with
           | |- context [?a <? ?b] => destruct (Z.ltb_spec a b)
           end; cbn;
    cbv [Pos.to_nat Pos.iter_op Nat.add Gregorian.months Z.of_nat Pos.of_succ_nat Pos.succ];
    unfold Gregorian.month_length; rewrite ?Hl; cbn;
    (split; [repeat (apply andb_true_intro; split); apply Z.leb_le; lia | lia]).
Qed.

Lemma figure_digit (n : Z) : Gregorian.figure (n mod 10) = digit n.
Proof.
  unfold digit, Gregorian.figure.
  assert (H : 0 <= n mod 10 < 10) by (apply Z.mod_pos_bound; lia).
  assert (C : n mod 10 = 0 \/ n mod 10 = 1 \/ n mod 10 = 2 \/ n mod 10 = 3 \/ n mod 10 = 4
              \/ n mod 10 = 5 \/ n mod 10 = 6 \/ n mod 10 = 7 \/ n mod 10 = 8 \/ n mod 10 = 9)
    by lia.
  repeat (destruct C as [->|C]; [reflexivity|]). now rewrite C.
Qed.

Lemma written_pad2 (n : Z) : Gregorian.written 2 n = pad2 n.
Proof.
  unfold pad2. cbn [Gregorian.written app]. now rewrite !figure_digit.
Qed.

Lemma written_pad4 (n : Z) : Gregorian.written 4 n = pad4 n.
Proof.
  unfold pad4. cbn [Gregorian.written app]. rewrite !figure_digit.
  rewrite !Z.div_div by lia. reflexivity.
Qed.

(** For a time value within the years 0000 to 9999, the date [toISOString]
    writes is the calendar date of the day the time value falls on. *)
Lemma calendar_day_gregorian (t : Z) :
  exists y m d,
    Gregorian.date y m d = true
    /\ Gregorian.day_number y m d = Day t
    /\ calendar_day t = Gregorian.iso_date y m d.
Proof.
  pose proof (civil_gregorian t) as H.
  unfold calendar_day, Gregorian.iso_date.
  destruct (civil t) as [[y m] d]. destruct H as [Hdate Hnum].
  exists y, m, d. repeat split; try assumption.
  now rewrite written_pad4, !written_pad2.
Qed.

End GregorianDates.

(** ** Historical data *)

Section History.

Variable StringToNumber : string -> option number.
Variable ArrayToString : list json -> string.

Lemma four_digit_years_millis (t : Z) :
  four_digit_years t = true ->
  (1000 * Z.abs t < 2 ^ 53)%Z /\ four_digit_year (1000 * t) = true.
Proof.
  unfold four_digit_years, four_digit_year. intros H.
  apply andb_prop in H as [Hlo Hhi]. apply Z.leb_le in Hlo, Hhi.
  split; [change (2 ^ 53)%Z with 9007199254740992%Z; lia|].
  apply andb_true_intro. split; apply Z.leb_le; lia.
Qed.

(** A raw point with a Unix time stamp is converted, into the point of the
    calendar day of the time stamp. *)
Lemma format_item_dated (item : json) (t : Z) (c : option json) :
  dated_point item = Some (t, c) ->
  format_item StringToNumber ArrayToString item = Ok (mkPoint (calendar_day (1000 * t)) c).
Proof.
  unfold dated_point, raw_point.
  destruct item as [| | | | |o|]; try discriminate.
  destruct (lookup "time" o) as [[| |n| | | |]|] eqn:T; try discriminate.
  destruct (seconds n) as [t'|] eqn:S; [|discriminate].
  destruct (four_digit_years t') eqn:Y; [|discriminate].
  intros H. injection H as <- <-.
  destruct (four_digit_years_millis t' Y) as [Hb Hy].
  unfold format_item. simpl. rewrite T. simpl.
  rewrite (millis_seconds n t' S Hb). unfold Dates.toISOString.
  rewrite (four_digit_year_valid _ Hy). simpl.
  now rewrite before_T_date, date_text_four_digits.
Qed.

Lemma day_point_calendar_day (t : Z) (c : option json) :
  day_point t c (mkPoint (calendar_day (1000 * t)) c).
Proof.
  split; [reflexivity|]. simpl.
  destruct (calendar_day_gregorian (1000 * t)) as (yy & mm & dd & Hd & Hn & Ht).
  exists yy, mm, dd. repeat split; try assumption.
  rewrite Hn. unfold Dates.Day, Dates.msPerDay.
  change 86400000%Z with (1000 * 86400)%Z. now rewrite Z.div_mul_cancel_l.
Qed.

Lemma map_res_ok (items : list json) (pts : list point) :
  map_res StringToNumber ArrayToString items = Ok pts
  <-> Forall2 (fun item p => format_item StringToNumber ArrayToString item = Ok p) items pts.
Proof.
  revert pts. induction items as [|item items IH]; intros pts; simpl.
  - split.
    + intros H. injection H as <-. constructor.
    + intros H. now inversion H.
  - destruct (format_item _ _ item) as [p|e] eqn:E; simpl.
    + destruct (map_res _ _ items) as [ps|e] eqn:M; simpl.
      * split.
        -- intros H. injection H as <-. constructor; [exact E|now apply IH].
        -- intros H. inversion H as [|? q ? qs Hq Hqs]; subst.
           apply IH in Hqs. congruence.
      * split; [discriminate|].
        intros H. inversion H as [|? q ? qs Hq Hqs]; subst.
        apply IH in Hqs. discriminate.
    + split; [discriminate|].
      intros H. inversion H as [|? q ? qs Hq Hqs]; subst. congruence.
Qed.

Lemma map_res_first_failure (items : list json) (e : js_error) :
  map_res StringToNumber ArrayToString items = Throw e
  <-> exists l1 x l2,
        items = l1 ++ x :: l2
        /\ Forall (fun item => exists p, format_item StringToNumber ArrayToString item = Ok p) l1
        /\ format_item StringToNumber ArrayToString x = Throw e.
Proof.
  induction items as [|item items IH]; simpl.
  - split; [discriminate|]. intros (l1 & x & l2 & E & _). now destruct l1.
  - split.
    + destruct (format_item _ _ item) as [p|e'] eqn:F; simpl.
      * destruct (map_res _ _ items) as [ps|e''] eqn:M; simpl; [discriminate|].
        intros H. injection H as ->.
        destruct (proj1 IH eq_refl) as (l1 & x & l2 & E & Hall & Hx).
        exists (item :: l1), x, l2. rewrite E. repeat split; [|exact Hx].
        constructor; eauto.
      * intros H. injection H as ->. exists [], item, items. auto.
    + intros (l1 & x & l2 & E & Hall & Hx).
      destruct l1 as [|z l1]; simpl in E; injection E as E1 E2; subst.
      * rewrite Hx. reflexivity.
      * inversion Hall as [|? ? [p Hp] Hall']; subst. rewrite Hp. simpl.
        assert (M : map_res StringToNumber ArrayToString (l1 ++ x :: l2) = Throw e).
        { apply IH. exists l1, x, l2. auto. }
        now rewrite M.
Qed.

(** The points of a returned list are the raw points converted one by one;
    a raw point with a Unix time stamp gives the point of its day. *)
Lemma map_res_dated (items : list json) (pts : list point) :
  map_res StringToNumber ArrayToString items = Ok pts ->
  Forall2 (fun item p => forall t c, dated_point item = Some (t, c) -> day_point t c p)
    items pts.
Proof.
  intros H. apply map_res_ok in H.
  induction H as [|item p items pts Hp _ IH]; constructor; [|exact IH].
  intros t c Hd. rewrite (format_item_dated item t c Hd) in Hp.
  injection Hp as <-. apply day_point_calendar_day.
Qed.

Lemma map_res_returns (items : list json) :
  Forall (fun item => forall e, format_item StringToNumber ArrayToString item <> Throw e) items ->
  exists pts, map_res StringToNumber ArrayToString items = Ok pts.
Proof.
  induction 1 as [|item items Hi _ [pts IH]]; simpl; [eauto|].
  destruct (format_item _ _ item) as [p|e]; [|now elim (Hi e)].
  rewrite IH. simpl. eauto.
Qed.

Lemma map_res_throw (items : list json) :
  Exists (fun item => exists e, format_item StringToNumber ArrayToString item = Throw e) items ->
  exists e, map_res StringToNumber ArrayToString items = Throw e.
Proof.
  induction 1 as [item items [e He]|item items _ [e IH]]; simpl.
  - rewrite He. simpl. eauto.
  - destruct (format_item _ _ item) as [p|e']; simpl; [|eauto].
    rewrite IH. simpl. eauto.
Qed.

End History.

(** C9, as stated, fails in three places.  A time stamp of the year 10000
    gets the expanded form of [toISOString], which is not [YYYY-MM-DD].  A
    point without [close], a shape the service does not document, makes
    nothing fail: the point simply carries no value.  And a time that is no
    whole number of seconds can be filed under the wrong day: the product
    [-16848000.001 * 1000] is rounded to a double and then cut towards zero,
    which gives midnight of 20 June 1969 for an instant of 19 June. *)
Lemma fetchHistoricalData_unexpected_points :
  let late := JObj [("time", JNum (mkNum false "253402300800" "")); ("close", JNum (mkNum false "1" ""))] in
  let bare := JObj [("time", JNum (mkNum false "0" ""))] in
  let early := JObj [("time", JNum (mkNum true "16848000" "001"))] in
  let fetch items :=
    fetchHistoricalData (fun _ => None) (fun _ => "") (fun _ => Ok (histoday_response items))
      None "btc" in
  (fetch [late] = Ok [mkPoint "+010000-01-01" (Some (JNum (mkNum false "1" "")))]
   /\ YYYY_MM_DD "+010000-01-01" = false)
  /\ fetch [bare] = Ok [mkPoint "1970-01-01" None]
  /\ (canonical (mkNum true "16848000" "001") = true
      /\ fetch [early] = Ok [mkPoint "1969-06-20" None]
      /\ Gregorian.day_number 1969 6 19 = (-16848000001 / 86400000)%Z
      /\ Gregorian.iso_date 1969 6 19 = "1969-06-19").
Proof.
  cbv zeta. repeat split; vm_compute; reflexivity.
Qed.

(** C9, amended: the error of a failed call is thrown on; a response without
    the array [Data.Data] makes the function throw; when the array is there,
    the function returns unless the conversion of a raw point throws, and it
    returns in particular when every raw point is an object whose [time] is a
    whole number of seconds dated within the years 0000 to 9999; and in a
    list it returns, every such raw point has become the point with the UTC
    calendar day of its time stamp, written [YYYY-MM-DD], and with the
    [close] of the raw point. *)
Theorem fetchHistoricalData_spec
  (StringToNumber : string -> option number) (ArrayToString : list json -> string)
  (market : string -> res json) (api_key : option string) (coinId : string) :
  let fetch := fetchHistoricalData StringToNumber ArrayToString market api_key coinId in
  match market (histoday_url api_key coinId) with
  | Throw e => fetch = Throw e
  | Ok data =>
      match raw_data data with
      | Ok (Some (JArr items)) =>
          (forall pts,
              fetch = Ok pts ->
              Forall2 (fun item p => forall t c, dated_point item = Some (t, c) -> day_point t c p)
                items pts)
          /\ (Forall (fun item => exists t c, dated_point item = Some (t, c)) items ->
              exists pts, fetch = Ok pts)
          /\ (Forall (fun item => forall e,
                        format_item StringToNumber ArrayToString item <> Throw e) items ->
              exists pts, fetch = Ok pts)
          /\ (Exists (fun item => exists e,
                        format_item StringToNumber ArrayToString item = Throw e) items ->
              exists e, fetch = Throw e)
      | _ => fetch = Throw TypeError
      end
  end.
Proof.
  intros fetch. subst fetch. unfold fetchHistoricalData.
  destruct (market _) as [data|e]; simpl; [|reflexivity].
  unfold raw_data.
  destruct (get_prop data "Data") as [d|e] eqn:D; simpl.
  - destruct (get_prop_opt d "Data") as [[[| | | |items| |]|]|e] eqn:R; simpl;
      try reflexivity.
    + split; [|split; [|split]].
      * apply map_res_dated.
      * intros H. apply map_res_returns.
        apply Forall_impl with (2 := H). intros item (t & c & Hd) e.
        rewrite (format_item_dated _ _ item t c Hd). discriminate.
      * apply map_res_returns.
      * apply map_res_throw.
    + destruct d as [[]|]; simpl in R; congruence.
  - destruct data; simpl in D; congruence.
Qed.

Lemma fetchHistoricalData_spec_witness :
  let item := JObj [("time", JNum (mkNum false "1700000000" ""));
                    ("close", JNum (mkNum false "35000" "5"))] in
  let fetch := fetchHistoricalData (fun _ => None) (fun _ => "")
                 (fun _ => Ok (histoday_response [item])) None "btc" in
  (exists pts, fetch = Ok pts)
  /\ forall pts, fetch = Ok pts ->
       Forall2 (fun item p => forall t c, dated_point item = Some (t, c) -> day_point t c p)
         [item] pts.
Proof.
  cbv zeta.
  destruct (fetchHistoricalData_spec (fun _ => None) (fun _ => "")
              (fun _ => Ok (histoday_response
                              [JObj [("time", JNum (mkNum false "1700000000" ""));
                                     ("close", JNum (mkNum false "35000" "5"))]]))
              None "btc") as (Hpts & Hall & _).
  split; [|exact Hpts].
  apply Hall. repeat constructor. exists 1700000000%Z, (Some (JNum (mkNum false "35000" "5"))).
  reflexivity.
Defined.

(** ** The round trip through the file *)






(** *** Decimal digits *)

Section Digits.
Local Open Scope Z_scope.








End Digits.

(** *** Zeros at the two ends of a numeral *)














Lemma parse_sign_digits (i r : text) :
  int_ok i = true -> forallb is_digit i = true -> parse_sign (i ++ r) = (false, i ++ r).
Proof.
  destruct i as [|c i]; [discriminate|]. intros _ H. simpl in H.
  apply andb_prop in H as [H _]. simpl.
  destruct (Ascii.eqb_spec c "-"%char) as [->|_]; [discriminate|reflexivity].
Qed.




(** *** The text of a number is read back *)

Section NumberText.
Local Open Scope Z_scope.





End NumberText.

Section NumberRoundTrip.
Local Open Scope Z_scope.



Lemma digit_not_digit_e (c : ascii) (r : text) :
  match "e"%char :: r with [] => true | c :: _ => negb (is_digit c) end = true.
Proof. reflexivity. Qed.


End NumberRoundTrip.








(** *** Values *)





Lemma parse_items_S (fuel : nat) (s : text) :
  parse_items (S fuel) s =
  match parse_value fuel s with
  | POk v r =>
      match skip_ws r with
      | c :: r1 =>
          if Ascii.eqb c "]"%char then POk [v] r1
          else if Ascii.eqb c ","%char then
            match parse_items fuel r1 with
            | POk l rest => POk (v :: l) rest
            | other => other
            end
          else PErr
      | [] => PErr
      end
  | PErr => PErr
  | PFuel => PFuel
  end.
Proof. reflexivity. Qed.

Lemma parse_members_S (fuel : nat) (acc : obj) (s : text) :
  parse_members (S fuel) acc s =
  match skip_ws s with
  | q :: r =>
      if Ascii.eqb q DQ then
        match parse_string r with
        | POk k r0 =>
            match skip_ws r0 with
            | c0 :: r1 =>
                if Ascii.eqb c0 ":"%char then
                  match parse_value fuel r1 with
                  | POk v r2 =>
                      match skip_ws r2 with
                      | c :: r3 =>
                          if Ascii.eqb c "}"%char then POk (set_prop k v acc) r3
                          else if Ascii.eqb c ","%char then
                            parse_members fuel (set_prop k v acc) r3
                          else PErr
                      | [] => PErr
                      end
                  | PErr => PErr
                  | PFuel => PFuel
                  end
                else PErr
            | [] => PErr
            end
        | PErr => PErr
        | PFuel => PFuel
        end
      else PErr
  | [] => PErr
  end.
Proof. reflexivity. Qed.





























(** ** The recursion budget of [JSON_parse] *)

Lemma skip_ws_length (s : text) : List.length (skip_ws s) <= List.length s.
Proof.
  induction s as [|c s IH]; simpl; [lia|].
  destruct (is_ws c); simpl; lia.
Qed.

Lemma strip_length (p s r : text) :
  strip p s = Some r -> List.length r + List.length p = List.length s.
Proof.
  revert s. induction p as [|a p IH]; intros [|b s]; simpl; intros H;
    try discriminate; try (injection H as <-; simpl; lia).
  destruct (Ascii.eqb a b); [|discriminate]. apply IH in H. lia.
Qed.

Lemma span_digits_length (s d r : text) :
  span_digits s = (d, r) -> List.length d + List.length r = List.length s.
Proof.
  revert d r. induction s as [|c s IH]; simpl; intros d r H.
  - injection H as <- <-. reflexivity.
  - destruct (is_digit c).
    + destruct (span_digits s) as [d' r'] eqn:E. injection H as <- <-.
      specialize (IH d' r' eq_refl). simpl. lia.
    + injection H as <- <-. reflexivity.
Qed.

Lemma parse_number_length (s : text) (n : number) (r : text) :
  parse_number s = POk n r -> List.length r < List.length s.
Proof.
  unfold parse_number, parse_digits.
  destruct (parse_sign s) as [sign s0] eqn:Es.
  assert (H0 : List.length s0 <= List.length s).
  { unfold parse_sign in Es. destruct s as [|c s']; [injection Es as _ <-; lia|].
    destruct (Ascii.eqb c "-"); injection Es as _ <-; simpl; lia. }
  destruct (span_digits s0) as [i s1] eqn:Ei.
  apply span_digits_length in Ei.
  destruct (int_ok i) eqn:Hi; [|discriminate].
  assert (H1 : 0 < List.length i) by (destruct i; [discriminate|simpl; lia]).
  destruct (parse_frac s1) as [[f s2]|] eqn:Ef; [|discriminate].
  assert (H2 : List.length s2 <= List.length s1).
  { unfold parse_frac in Ef. destruct s1 as [|d r1]; [injection Ef as _ <-; lia|].
    destruct (Ascii.eqb d ".").
    - destruct (span_digits r1) as [f' s2'] eqn:E. apply span_digits_length in E.
      destruct f'; [discriminate|]. injection Ef as _ <-. simpl. lia.
    - injection Ef as _ <-. lia. }
  destruct (parse_exp s2) as [[e s3]|] eqn:Ee; [|discriminate].
  assert (H3 : List.length s3 <= List.length s2).
  { unfold parse_exp in Ee. destruct s2 as [|x r2]; [injection Ee as _ <-; lia|].
    destruct (Ascii.eqb x "e" || Ascii.eqb x "E").
    - destruct (parse_exp_sign r2) as [es r0] eqn:Er.
      assert (List.length r0 <= List.length r2).
      { unfold parse_exp_sign in Er. destruct r2 as [|y r']; [injection Er as _ <-; lia|].
        destruct (Ascii.eqb y "-"); [injection Er as _ <-; simpl; lia|].
        destruct (Ascii.eqb y "+"); injection Er as _ <-; simpl; lia. }
      destruct (span_digits r0) as [ed s3'] eqn:E. apply span_digits_length in E.
      destruct ed; [discriminate|]. injection Ee as _ <-. simpl in *. lia.
    - injection Ee as _ <-. lia. }
  intros H. injection H as _ <-. lia.
Qed.

Lemma parse_number_fuel (s : text) : parse_number s <> PFuel.
Proof.
  unfold parse_number, parse_digits.
  destruct (parse_sign s) as [sign s0].
  destruct (span_digits s0) as [i s1].
  destruct (int_ok i); [|discriminate].
  destruct (parse_frac s1) as [[f s2]|]; [|discriminate].
  destruct (parse_exp s2) as [[e s3]|]; discriminate.
Qed.

Lemma push_spec (n : nat) (c : text) (p : presult text) :
  (p <> PFuel /\ forall cs r, p = POk cs r -> List.length r < n) ->
  push c p <> PFuel /\ forall cs r, push c p = POk cs r -> List.length r < n.
Proof.
  intros [Hf Hl]. destruct p as [cs rest| |]; simpl.
  - split; [discriminate|]. intros cs' r H. injection H as _ <-. now apply (Hl cs).
  - split; discriminate.
  - now elim Hf.
Qed.

(** [parse_chars] consumes at least the closing quote and never asks for
    more budget. *)
Lemma parse_chars_length (n : nat) :
  forall s, List.length s < n ->
  parse_chars s <> PFuel
  /\ forall cs r, parse_chars s = POk cs r -> List.length r < List.length s.
Proof.
  induction n as [|n IH]; intros s Hn; [lia|].
  assert (Hrec : forall (s' : text) (c : text), List.length s' < List.length s ->
            push c (parse_chars s') <> PFuel
            /\ forall cs r, push c (parse_chars s') = POk cs r -> List.length r < List.length s).
  { intros s' c Hs'. apply push_spec. destruct (IH s' ltac:(lia)) as [Hf Hl].
    split; [exact Hf|]. intros cs r H. specialize (Hl cs r H). lia. }
  destruct s as [|c r]; [split; discriminate|].
  cbn [parse_chars]. cbn [List.length] in *.
  destruct (Ascii.eqb c DQ).
  { split; [discriminate|]. intros cs r' H. injection H as _ <-. lia. }
  destruct (Ascii.eqb c BS).
  2:{ destruct (nat_of_ascii c <? 32); [split; discriminate|]. apply Hrec. lia. }
  destruct r as [|e r1]; [split; discriminate|]. cbn [List.length] in *.
  destruct (escape_char e); [apply Hrec; lia|].
  destruct (Ascii.eqb e "u"); [|split; discriminate].
  destruct r1 as [|h1 [|h2 [|h3 [|h4 r2]]]]; try (split; discriminate).
  cbn [List.length] in *.
  destruct (hex4 h1 h2 h3 h4) as [u|]; [|split; discriminate].
  destruct (if is_high_surrogate u then low_escape r2 else None) as [[lo x]|].
  - destruct r2 as [|a1 [|a2 [|a3 [|a4 [|a5 [|a6 r3]]]]]]; try (split; discriminate).
    cbn [List.length] in *. apply Hrec. lia.
  - apply Hrec. lia.
Qed.

Lemma parse_string_length (s : text) (k : string) (r : text) :
  parse_string s = POk k r -> List.length r < List.length s.
Proof.
  unfold parse_string.
  destruct (parse_chars_length (S (List.length s)) s ltac:(lia)) as [_ Hl].
  destruct (parse_chars s) as [cs rest| |]; try discriminate.
  intros H. injection H as _ <-. now apply (Hl cs).
Qed.

Lemma parse_string_fuel (s : text) : parse_string s <> PFuel.
Proof.
  unfold parse_string.
  destruct (parse_chars_length (S (List.length s)) s ltac:(lia)) as [Hf _].
  destruct (parse_chars s); [discriminate|discriminate|now elim Hf].
Qed.

Lemma parse_value_S (fuel : nat) (s : text) :
  parse_value (S fuel) s =
  match skip_ws s with
  | [] => PErr
  | c :: r =>
      if Ascii.eqb c "{"%char then
        match skip_ws r with
        | c1 :: r1 =>
            if Ascii.eqb c1 "}"%char then POk (JObj []) r1
            else
              match parse_members fuel [] (c1 :: r1) with
              | POk o rest => POk (JObj o) rest
              | PErr => PErr
              | PFuel => PFuel
              end
        | [] => PErr
        end
      else if Ascii.eqb c "["%char then
        match skip_ws r with
        | c1 :: r1 =>
            if Ascii.eqb c1 "]"%char then POk (JArr []) r1
            else
              match parse_items fuel (c1 :: r1) with
              | POk l rest => POk (JArr l) rest
              | PErr => PErr
              | PFuel => PFuel
              end
        | [] => PErr
        end
      else if Ascii.eqb c DQ then
        match parse_string r with
        | POk str rest => POk (JStr str) rest
        | PErr => PErr
        | PFuel => PFuel
        end
      else
        match strip (txt "null") (c :: r) with
        | Some rest => POk JNull rest
        | None =>
            match strip (txt "true") (c :: r) with
            | Some rest => POk (JBool true) rest
            | None =>
                match strip (txt "false") (c :: r) with
                | Some rest => POk (JBool false) rest
                | None =>
                    match parse_number (c :: r) with
                    | POk n rest => POk (JNum n) rest
                    | PErr => PErr
                    | PFuel => PFuel
                    end
                end
            end
        end
  end.
Proof. reflexivity. Qed.

(** Every parsing function consumes at least one character. *)
Lemma parse_rest_shorter (fuel : nat) :
  (forall s v r, parse_value fuel s = POk v r -> List.length r < List.length s)
  /\ (forall s l r, parse_items fuel s = POk l r -> List.length r < List.length s)
  /\ (forall acc s o r, parse_members fuel acc s = POk o r -> List.length r < List.length s).
Proof.
  induction fuel as [|fuel (IHv & IHi & IHm)]; [repeat split; discriminate|].
  repeat split.
  - intros s v r. rewrite parse_value_S.
    pose proof (skip_ws_length s) as Hs.
    destruct (skip_ws s) as [|c r0]; [discriminate|]. cbn [List.length] in Hs.
    pose proof (skip_ws_length r0) as Hr0.
    destruct (Ascii.eqb c "{").
    { destruct (skip_ws r0) as [|c1 r1]; [discriminate|]. cbn [List.length] in Hr0.
      destruct (Ascii.eqb c1 "}"); [intros H; injection H as _ <-; lia|].
      destruct (parse_members fuel [] (c1 :: r1)) as [o rest| |] eqn:M; try discriminate.
      intros H. injection H as _ <-. apply IHm in M. cbn [List.length] in M. lia. }
    destruct (Ascii.eqb c "[").
    { destruct (skip_ws r0) as [|c1 r1]; [discriminate|]. cbn [List.length] in Hr0.
      destruct (Ascii.eqb c1 "]"); [intros H; injection H as _ <-; lia|].
      destruct (parse_items fuel (c1 :: r1)) as [o rest| |] eqn:M; try discriminate.
      intros H. injection H as _ <-. apply IHi in M. cbn [List.length] in M. lia. }
    destruct (Ascii.eqb c DQ).
    { destruct (parse_string r0) as [k rest| |] eqn:M; try discriminate.
      intros H. injection H as _ <-. apply parse_string_length in M. lia. }
    destruct (strip (txt "null") (c :: r0)) as [rest|] eqn:E1.
    { intros H. injection H as _ <-. apply strip_length in E1.
      cbn [List.length txt list_ascii_of_string] in E1. lia. }
    destruct (strip (txt "true") (c :: r0)) as [rest|] eqn:E2.
    { intros H. injection H as _ <-. apply strip_length in E2.
      cbn [List.length txt list_ascii_of_string] in E2. lia. }
    destruct (strip (txt "false") (c :: r0)) as [rest|] eqn:E3.
    { intros H. injection H as _ <-. apply strip_length in E3.
      cbn [List.length txt list_ascii_of_string] in E3. lia. }
    destruct (parse_number (c :: r0)) as [n rest| |] eqn:M; try discriminate.
    intros H. injection H as _ <-. apply parse_number_length in M.
    cbn [List.length] in M. lia.
  - intros s l r. rewrite parse_items_S.
    destruct (parse_value fuel s) as [v r0| |] eqn:V; try discriminate.
    apply IHv in V. pose proof (skip_ws_length r0) as Hr0.
    destruct (skip_ws r0) as [|c r1]; [discriminate|]. cbn [List.length] in Hr0.
    destruct (Ascii.eqb c "]"); [intros H; injection H as _ <-; lia|].
    destruct (Ascii.eqb c ","); [|discriminate].
    destruct (parse_items fuel r1) as [l' rest| |] eqn:M; try discriminate.
    intros H. injection H as _ <-. apply IHi in M. lia.
  - intros acc s o r. rewrite parse_members_S.
    pose proof (skip_ws_length s) as Hs.
    destruct (skip_ws s) as [|q r0]; [discriminate|]. cbn [List.length] in Hs.
    destruct (Ascii.eqb q DQ); [|discriminate].
    destruct (parse_string r0) as [k r1| |] eqn:K; try discriminate.
    apply parse_string_length in K. pose proof (skip_ws_length r1) as Hr1.
    destruct (skip_ws r1) as [|c0 r2]; [discriminate|]. cbn [List.length] in Hr1.
    destruct (Ascii.eqb c0 ":"); [|discriminate].
    destruct (parse_value fuel r2) as [v r3| |] eqn:V; try discriminate.
    apply IHv in V. pose proof (skip_ws_length r3) as Hr3.
    destruct (skip_ws r3) as [|c r4]; [discriminate|]. cbn [List.length] in Hr3.
    destruct (Ascii.eqb c "}"); [intros H; injection H as _ <-; lia|].
    destruct (Ascii.eqb c ","); [|discriminate].
    intros M. apply IHm in M. lia.
Qed.

(** A budget of twice the length of the text is never used up. *)
Lemma parse_fuel_enough (fuel : nat) :
  (forall s, 2 * List.length s < fuel -> parse_value fuel s <> PFuel)
  /\ (forall s, 2 * List.length s + 1 < fuel -> parse_items fuel s <> PFuel)
  /\ (forall acc s, 2 * List.length s + 1 < fuel -> parse_members fuel acc s <> PFuel).
Proof.
  induction fuel as [|fuel (IHv & IHi & IHm)]; [repeat split; intros; lia|].
  destruct (parse_rest_shorter fuel) as (Lv & Li & Lm).
  repeat split.
  - intros s Hf. rewrite parse_value_S.
    pose proof (skip_ws_length s) as Hs.
    destruct (skip_ws s) as [|c r0]; [discriminate|]. cbn [List.length] in Hs.
    pose proof (skip_ws_length r0) as Hr0.
    destruct (Ascii.eqb c "{").
    { destruct (skip_ws r0) as [|c1 r1]; [discriminate|]. cbn [List.length] in Hr0.
      destruct (Ascii.eqb c1 "}"); [discriminate|].
      pose proof (IHm [] (c1 :: r1) ltac:(cbn [List.length]; lia)) as M.
      destruct (parse_members fuel [] (c1 :: r1)); [discriminate|discriminate|now elim M]. }
    destruct (Ascii.eqb c "[").
    { destruct (skip_ws r0) as [|c1 r1]; [discriminate|]. cbn [List.length] in Hr0.
      destruct (Ascii.eqb c1 "]"); [discriminate|].
      pose proof (IHi (c1 :: r1) ltac:(cbn [List.length]; lia)) as M.
      destruct (parse_items fuel (c1 :: r1)); [discriminate|discriminate|now elim M]. }
    destruct (Ascii.eqb c DQ).
    { pose proof (parse_string_fuel r0) as M.
      destruct (parse_string r0); [discriminate|discriminate|now elim M]. }
    destruct (strip (txt "null") (c :: r0)); [discriminate|].
    destruct (strip (txt "true") (c :: r0)); [discriminate|].
    destruct (strip (txt "false") (c :: r0)); [discriminate|].
    pose proof (parse_number_fuel (c :: r0)) as M.
    destruct (parse_number (c :: r0)); [discriminate|discriminate|now elim M].
  - intros s Hf. rewrite parse_items_S.
    pose proof (IHv s ltac:(lia)) as V.
    destruct (parse_value fuel s) as [v r0| |] eqn:E; [|discriminate|now elim V].
    apply Lv in E. pose proof (skip_ws_length r0) as Hr0.
    destruct (skip_ws r0) as [|c r1]; [discriminate|]. cbn [List.length] in Hr0.
    destruct (Ascii.eqb c "]"); [discriminate|].
    destruct (Ascii.eqb c ","); [|discriminate].
    pose proof (IHi r1 ltac:(lia)) as M.
    destruct (parse_items fuel r1); [discriminate|discriminate|now elim M].
  - intros acc s Hf. rewrite parse_members_S.
    pose proof (skip_ws_length s) as Hs.
    destruct (skip_ws s) as [|q r0]; [discriminate|]. cbn [List.length] in Hs.
    destruct (Ascii.eqb q DQ); [|discriminate].
    pose proof (parse_string_fuel r0) as K.
    destruct (parse_string r0) as [k r1| |] eqn:E; [|discriminate|now elim K].
    apply parse_string_length in E. pose proof (skip_ws_length r1) as Hr1.
    destruct (skip_ws r1) as [|c0 r2]; [discriminate|]. cbn [List.length] in Hr1.
    destruct (Ascii.eqb c0 ":"); [|discriminate].
    pose proof (IHv r2 ltac:(lia)) as V.
    destruct (parse_value fuel r2) as [v r3| |] eqn:E2; [|discriminate|now elim V].
    apply Lv in E2. pose proof (skip_ws_length r3) as Hr3.
    destruct (skip_ws r3) as [|c r4]; [discriminate|]. cbn [List.length] in Hr3.
    destruct (Ascii.eqb c "}"); [discriminate|].
    destruct (Ascii.eqb c ","); [|discriminate].
    apply IHm. lia.
Qed.

(** [JSON_parse] returns [None] only for a text that is not JSON: its
    budget does not run out. *)
Theorem JSON_parse_budget (s : text) : parse_value (2 * List.length s + 1) s <> PFuel.
Proof.
  apply (parse_fuel_enough (2 * List.length s + 1)). lia.
Qed.



(** * Further properties of the routes *)


(** * Further properties of the store *)

(** ** How a lookup walks the array *)

(** The search either passes every record, or stops at the first record with
    the id, or throws at a [null] entry it meets before any such record. *)
Lemma findIndex_cases (id : string) (l : list json) :
  (findIndex id l = Ok None /\ find id l = Ok None
   /\ Forall (fun q => has_id id q = Ok false) l)
  \/ (exists l1 r l2,
        l = l1 ++ r :: l2 /\ Forall (fun q => has_id id q = Ok false) l1
        /\ has_id id r = Ok true
        /\ findIndex id l = Ok (Some (List.length l1)) /\ find id l = Ok (Some r))
  \/ (exists l1 l2,
        l = l1 ++ JNull :: l2 /\ Forall (fun q => has_id id q = Ok false) l1
        /\ findIndex id l = Throw TypeError /\ find id l = Throw TypeError).
Proof.
  induction l as [|p l IH]; simpl.
  - left. auto.
  - destruct (has_id id p) as [[|]|e] eqn:E; simpl.
    + right. left. exists [], p, l. simpl. auto.
    + destruct IH as [(Hi & Hf & Hall)|[(l1 & r & l2 & -> & Hall & Hr & Hi & Hf)
                                       |(l1 & l2 & -> & Hall & Hi & Hf)]].
      * left. rewrite Hi, Hf. simpl. auto.
      * right. left. exists (p :: l1), r, l2. rewrite Hi, Hf. simpl. auto.
      * right. right. exists (p :: l1), l2. rewrite Hi, Hf. simpl. auto.
    + right. right. exists [], l. simpl.
      destruct p; unfold has_id in E; simpl in E; try discriminate.
      injection E as <-. auto.
Qed.

Lemma nth_middle_json (l1 l2 : list json) (r : json) :
  nth (List.length l1) (l1 ++ r :: l2) JNull = r.
Proof. induction l1; simpl; auto. Qed.

Lemma remove_at_middle (l1 l2 : list json) (r : json) :
  remove_at (List.length l1) (l1 ++ r :: l2) = l1 ++ l2.
Proof. induction l1 as [|x l1 IH]; simpl; [reflexivity|now rewrite IH]. Qed.

Lemma replace_at_middle (l1 l2 : list json) (r x : json) :
  replace_at (List.length l1) x (l1 ++ r :: l2) = l1 ++ x :: l2.
Proof. induction l1 as [|z l1 IH]; simpl; [reflexivity|now rewrite IH]. Qed.

Lemma find_skip (id : string) (l1 l2 : list json) :
  Forall (fun q => has_id id q = Ok false) l1 -> find id (l1 ++ l2) = find id l2.
Proof.
  induction 1 as [|q l1 Hq _ IH]; simpl; [reflexivity|]. now rewrite Hq.
Qed.

Lemma findIndex_skip (id : string) (l1 l2 : list json) :
  Forall (fun q => has_id id q = Ok false) l1 ->
  findIndex id (l1 ++ l2) =
  match findIndex id l2 with
  | Ok i => Ok (option_map (fun n => List.length l1 + n) i)
  | Throw e => Throw e
  end.
Proof.
  induction 1 as [|q l1 Hq _ IH]; simpl.
  - destruct (findIndex id l2) as [[n|]|e]; reflexivity.
  - rewrite Hq. simpl. rewrite IH.
    destruct (findIndex id l2) as [[n|]|e]; reflexivity.
Qed.

(** X1.  [GET /portfolios/:id] answers with the first record whose [id] is
    the string of the route; it answers 404 when every record is passed; and
    the only other outcome is the [TypeError] of a [null] entry that comes
    before any record with the id. *)
Theorem get_portfolio_cases (id : string) (st : state) :
  (get_portfolio id st = not_found
   /\ Forall (fun q => has_id id q = Ok false) (portfolios st))
  \/ (exists l1 r l2,
        portfolios st = l1 ++ r :: l2
        /\ Forall (fun q => has_id id q = Ok false) l1
        /\ get_prop r "id" = Ok (Some (JStr id))
        /\ get_portfolio id st = Reply 200 r)
  \/ (exists l1 l2,
        portfolios st = l1 ++ JNull :: l2
        /\ Forall (fun q => has_id id q = Ok false) l1
        /\ get_portfolio id st = Unhandled TypeError).
Proof.
  unfold get_portfolio.
  destruct (findIndex_cases id (portfolios st))
    as [(_ & Hf & Hall)|[(l1 & r & l2 & E & Hall & Hr & _ & Hf)|(l1 & l2 & E & Hall & _ & Hf)]];
    rewrite Hf.
  - left. auto.
  - right. left. exists l1, r, l2. rewrite (has_id_truthy id r Hr).
    destruct (has_id_true id r Hr) as (o & -> & Ho). simpl. rewrite Ho. auto.
  - right. right. exists l1, l2. auto.
Qed.

(** X2.  An insert never hides a record: a lookup that found a record before
    finds the same record afterwards, whatever is inserted. *)
Theorem insert_keeps_lookups (w : fs_write) (p : json) (id : string) (st : state) (r : json) :
  get_portfolio id st = Reply 200 r ->
  get_portfolio id (fst (post_portfolio w p st)) = Reply 200 r.
Proof.
  intros H.
  assert (Hp : portfolios (fst (post_portfolio w p st)) = portfolios st ++ [p])
    by (destruct w; reflexivity).
  unfold get_portfolio in *. rewrite Hp.
  destruct (findIndex_cases id (portfolios st))
    as [(_ & Hf & _)|[(l1 & q & l2 & E & Hall & Hq & _ & Hf)|(l1 & l2 & E & Hall & _ & Hf)]];
    rewrite Hf in H; try discriminate.
  rewrite E, <- app_assoc, (find_skip id l1 _ Hall). simpl. rewrite Hq. simpl. exact H.
Qed.

Lemma insert_keeps_lookups_witness :
  get_portfolio "abc"
    (fst (post_portfolio WriteOk (JObj [("id", JStr "abc"); ("coins", JArr [])])
            (mkState [JObj [("id", JStr "abc"); ("coins", JArr [JStr "BTC"])]] None)))
  = Reply 200 (JObj [("id", JStr "abc"); ("coins", JArr [JStr "BTC"])]).
Proof.
  apply (insert_keeps_lookups WriteOk (JObj [("id", JStr "abc"); ("coins", JArr [])]) "abc"
           (mkState [JObj [("id", JStr "abc"); ("coins", JArr [JStr "BTC"])]] None)).
  reflexivity.
Defined.


(** ** Removal *)

Lemma delete_portfolio_portfolios (w : fs_write) (id : string) (st : state) (i : nat) :
  findIndex id (portfolios st) = Ok (Some i) ->
  portfolios (fst (delete_portfolio w id st)) = remove_at i (portfolios st).
Proof.
  intros Hf. unfold delete_portfolio. rewrite Hf. destruct w; reflexivity.
Qed.

Lemma findIndex_split (id : string) (l1 l2 : list json) (r : json) :
  Forall (fun q => has_id id q = Ok false) l1 ->
  has_id id r = Ok true ->
  findIndex id (l1 ++ r :: l2) = Ok (Some (List.length l1)).
Proof.
  intros Hall Hr. rewrite (findIndex_skip id l1 _ Hall). simpl. rewrite Hr. simpl.
  now rewrite Nat.add_0_r.
Qed.

Lemma not_found_all (id : string) (st : state) :
  get_portfolio id st = not_found ->
  Forall (fun q => has_id id q = Ok false) (portfolios st).
Proof.
  unfold get_portfolio. intros H.
  destruct (findIndex_cases id (portfolios st))
    as [(_ & _ & Hall)|[(l1 & r & l2 & _ & _ & Hr & _ & Hf)|(l1 & l2 & _ & _ & _ & Hf)]];
    [exact Hall | | ]; rewrite Hf in H; [|discriminate].
  rewrite (has_id_truthy id r Hr) in H. discriminate.
Qed.

(** X3.  [DELETE /portfolios/:id] takes away the first record with the id
    and nothing else: the records before it and after it stay, in their
    order, whether the write to the file succeeds or not. *)
Theorem delete_removes_first_match
  (w : fs_write) (id : string) (st : state) (l1 l2 : list json) (r : json) :
  portfolios st = l1 ++ r :: l2 ->
  Forall (fun q => has_id id q = Ok false) l1 ->
  has_id id r = Ok true ->
  portfolios (fst (delete_portfolio w id st)) = l1 ++ l2
  /\ snd (delete_portfolio WriteOk id st)
     = Reply 200 (JObj [("message", JStr "Portfolio deleted successfully")]).
Proof.
  intros E Hall Hr.
  assert (Hf : findIndex id (portfolios st) = Ok (Some (List.length l1)))
    by (rewrite E; now apply findIndex_split).
  split.
  - rewrite (delete_portfolio_portfolios w id st _ Hf), E. apply remove_at_middle.
  - unfold delete_portfolio. now rewrite Hf.
Qed.

Lemma delete_removes_first_match_witness :
  let a1 := JObj [("id", JStr "a"); ("n", JStr "first")] in
  let b := JObj [("id", JStr "b")] in
  let a2 := JObj [("id", JStr "a"); ("n", JStr "second")] in
  portfolios (fst (delete_portfolio WriteOk "a" (mkState [b; a1; a2] None))) = [b] ++ [a2]
  /\ snd (delete_portfolio WriteOk "a" (mkState [b; a1; a2] None))
     = Reply 200 (JObj [("message", JStr "Portfolio deleted successfully")]).
Proof.
  cbv zeta.
  apply (delete_removes_first_match WriteOk "a"
           (mkState [JObj [("id", JStr "b")]; JObj [("id", JStr "a"); ("n", JStr "first")];
                     JObj [("id", JStr "a"); ("n", JStr "second")]] None)
           [JObj [("id", JStr "b")]] [JObj [("id", JStr "a"); ("n", JStr "second")]]
           (JObj [("id", JStr "a"); ("n", JStr "first")])).
  - reflexivity.
  - repeat constructor.
  - reflexivity.
Defined.

Lemma has_id_other (id id' : string) (r : json) :
  has_id id r = Ok true -> id' <> id -> has_id id' r = Ok false.
Proof.
  intros Hr Hne. destruct (has_id_true id r Hr) as (o & -> & Ho).
  unfold has_id. simpl. rewrite Ho. simpl.
  apply String.eqb_neq in Hne. now rewrite String.eqb_sym, Hne.
Qed.

Lemma find_remove_other (id' : string) (l1 l2 : list json) (r : json) :
  has_id id' r = Ok false -> find id' (l1 ++ r :: l2) = find id' (l1 ++ l2).
Proof.
  intros Hr. induction l1 as [|q l1 IH]; simpl.
  - now rewrite Hr.
  - now rewrite IH.
Qed.

(** X4.  Removing the record of one id never changes what a lookup of
    another id answers. *)
Theorem delete_keeps_other_lookups (w : fs_write) (id id' : string) (st : state) :
  id' <> id ->
  get_portfolio id' (fst (delete_portfolio w id st)) = get_portfolio id' st.
Proof.
  intros Hne.
  destruct (findIndex_cases id (portfolios st))
    as [(Hi & _)|[(l1 & r & l2 & E & Hall & Hr & Hi & _)|(l1 & l2 & E & Hall & Hi & _)]].
  - unfold delete_portfolio. now rewrite Hi.
  - unfold get_portfolio.
    rewrite (delete_portfolio_portfolios w id st _ Hi), E, remove_at_middle.
    now rewrite (find_remove_other id' l1 l2 r (has_id_other id id' r Hr Hne)).
  - unfold delete_portfolio. now rewrite Hi.
Qed.

Lemma delete_keeps_other_lookups_witness :
  get_portfolio "b"
    (fst (delete_portfolio WriteOk "a"
            (mkState [JObj [("id", JStr "a")]; JObj [("id", JStr "b")]] None)))
  = get_portfolio "b" (mkState [JObj [("id", JStr "a")]; JObj [("id", JStr "b")]] None).
Proof.
  apply (delete_keeps_other_lookups WriteOk "a" "b"
           (mkState [JObj [("id", JStr "a")]; JObj [("id", JStr "b")]] None)).
  discriminate.
Defined.

(** X5.  Inserting an object under an id the store does not hold and then
    removing that id gives back the array as it was. *)
Theorem insert_then_remove (w w' : fs_write) (p : json) (id : string) (st : state) :
  get_prop p "id" = Ok (Some (JStr id)) ->
  get_portfolio id st = not_found ->
  portfolios (fst (delete_portfolio w' id (fst (post_portfolio w p st)))) = portfolios st.
Proof.
  intros Hid Hnf.
  pose proof (not_found_all id st Hnf) as Hall.
  assert (Hp : portfolios (fst (post_portfolio w p st)) = portfolios st ++ [p])
    by (destruct w; reflexivity).
  rewrite (delete_portfolio_portfolios w' id _ (List.length (portfolios st))).
  - rewrite Hp, remove_at_middle. apply app_nil_r.
  - rewrite Hp. apply findIndex_split; [exact Hall | now apply has_id_of_prop].
Qed.

Lemma insert_then_remove_witness :
  portfolios
    (fst (delete_portfolio WriteOk "abc"
            (fst (post_portfolio WriteOk (JObj [("id", JStr "abc")])
                    (mkState [JObj [("id", JStr "x")]] None))))) = [JObj [("id", JStr "x")]].
Proof.
  apply (insert_then_remove WriteOk WriteOk (JObj [("id", JStr "abc")]) "abc"
           (mkState [JObj [("id", JStr "x")]] None)); reflexivity.
Defined.


(** ** Updates and the resolution of ids *)

Lemma findIndex_replace_at (id' : string) (l : list json) (i : nat) (r' : json) :
  i < List.length l ->
  has_id id' r' = has_id id' (nth i l JNull) ->
  findIndex id' (replace_at i r' l) = findIndex id' l.
Proof.
  revert i. induction l as [|q l IH]; intros [|i] Hlt Hr; simpl in *; try lia.
  - now rewrite Hr.
  - now rewrite (IH i ltac:(lia) Hr).
Qed.

Lemma has_id_patch_field (id' k : string) (body : obj) (r : json) :
  k <> "id" -> has_id id' (patch_field k body r) = has_id id' r.
Proof.
  intros Hk. unfold has_id. rewrite patch_field_other; [reflexivity|].
  intros E. apply Hk. now rewrite E.
Qed.

Lemma has_id_spread (id' : string) (o body : obj) :
  ~ In "id" (keys body) -> has_id id' (JObj (spread o body)) = has_id id' (JObj o).
Proof.
  intros Hn. unfold has_id. simpl. now rewrite lookup_spread_absent.
Qed.

(** X6.  A [PATCH] never changes which record an id resolves to: after it,
    the search for any id stops at the same place as before, and so each
    lookup answers with the record at the same position. *)
Theorem patch_keeps_resolution (w : fs_write) (id id' : string) (body : obj) (st : state) :
  findIndex id' (portfolios (fst (patch_portfolio w id body st)))
  = findIndex id' (portfolios st).
Proof.
  destruct (findIndex id (portfolios st)) as [[i|]|e] eqn:Hf.
  - rewrite (patch_portfolio_portfolios w id body st i Hf).
    apply findIndex_replace_at; [apply (findIndex_some _ _ _ Hf)|].
    now rewrite !has_id_patch_field by discriminate.
  - unfold patch_portfolio. now rewrite Hf.
  - unfold patch_portfolio. now rewrite Hf.
Qed.

(** X7.  A [PUT] whose body carries no [id] does not change which record an
    id resolves to either. *)
Theorem put_keeps_resolution (w : fs_write) (id id' : string) (body : obj) (st : state) :
  ~ In "id" (keys body) ->
  findIndex id' (portfolios (fst (put_portfolio w id body st)))
  = findIndex id' (portfolios st).
Proof.
  intros Hn.
  destruct (findIndex id (portfolios st)) as [[i|]|e] eqn:Hf.
  - rewrite (put_portfolio_portfolios w id body st i Hf).
    destruct (findIndex_some _ _ _ Hf) as [Hlt Hid].
    apply findIndex_replace_at; [exact Hlt|].
    destruct (has_id_true _ _ Hid) as (o & -> & _). simpl own_props.
    now apply has_id_spread.
  - unfold put_portfolio. now rewrite Hf.
  - unfold put_portfolio. now rewrite Hf.
Qed.

Lemma put_keeps_resolution_witness :
  findIndex "b"
    (portfolios (fst (put_portfolio WriteOk "a" [("coins", JArr [])]
                        (mkState [JObj [("id", JStr "a")]; JObj [("id", JStr "b")]] None))))
  = findIndex "b" [JObj [("id", JStr "a")]; JObj [("id", JStr "b")]].
Proof.
  apply (put_keeps_resolution WriteOk "a" "b" [("coins", JArr [])]
           (mkState [JObj [("id", JStr "a")]; JObj [("id", JStr "b")]] None)).
  simpl. intros [H|[]]. discriminate H.
Defined.

(** X8.  What a successful [PATCH], or a successful [PUT] without [id] in
    its body, sends back as [portfolio] is what [GET /portfolios/:id] answers
    right afterwards. *)
Theorem update_then_get (id : string) (body : obj) (st : state) (i : nat) :
  findIndex id (portfolios st) = Ok (Some i) ->
  (exists r, snd (patch_portfolio WriteOk id body st) = Reply 200 (updated_body r)
             /\ get_portfolio id (fst (patch_portfolio WriteOk id body st)) = Reply 200 r)
  /\ (~ In "id" (keys body) ->
      exists r, snd (put_portfolio WriteOk id body st) = Reply 200 (updated_body r)
                /\ get_portfolio id (fst (put_portfolio WriteOk id body st)) = Reply 200 r).
Proof.
  intros Hf. destruct (findIndex_some _ _ _ Hf) as [Hlt Hid].
  assert (Hget : forall r', has_id id r' = has_id id (nth i (portfolios st) JNull) ->
            forall f, get_portfolio id (mkState (replace_at i r' (portfolios st)) f)
                      = Reply 200 (nth i (replace_at i r' (portfolios st)) JNull)).
  { intros r' Hr f. unfold get_portfolio. simpl.
    rewrite find_findIndex, (findIndex_replace_at id _ i r' Hlt Hr), Hf.
    rewrite nth_replace_at_same by exact Hlt.
    rewrite <- Hr in Hid. now rewrite (has_id_truthy id r' Hid). }
  split.
  - unfold patch_portfolio. rewrite Hf. simpl.
    eexists. split; [reflexivity|]. apply Hget.
    now rewrite !has_id_patch_field by discriminate.
  - intros Hn. unfold put_portfolio. rewrite Hf. simpl.
    eexists. split; [reflexivity|]. apply Hget.
    destruct (has_id_true _ _ Hid) as (o & -> & _). simpl own_props.
    now apply has_id_spread.
Qed.

Lemma update_then_get_witness :
  let st := mkState [JObj [("id", JStr "abc"); ("coins", JArr [JStr "BTC"])]] None in
  let body := [("values", JArr [JNum (mkNum false "100" "")])] in
  (exists r, snd (patch_portfolio WriteOk "abc" body st) = Reply 200 (updated_body r)
             /\ get_portfolio "abc" (fst (patch_portfolio WriteOk "abc" body st)) = Reply 200 r)
  /\ (~ In "id" (keys body) ->
      exists r, snd (put_portfolio WriteOk "abc" body st) = Reply 200 (updated_body r)
                /\ get_portfolio "abc" (fst (put_portfolio WriteOk "abc" body st)) = Reply 200 r).
Proof.
  apply (update_then_get "abc" [("values", JArr [JNum (mkNum false "100" "")])]
           (mkState [JObj [("id", JStr "abc"); ("coins", JArr [JStr "BTC"])]] None) 0).
  reflexivity.
Defined.


(** ** Repeating an update, and updates that carry nothing *)

Lemma set_prop_same (k : string) (v : json) (o : obj) :
  lookup k o = Some v -> set_prop k v o = o.
Proof.
  induction o as [|[k' v'] o IH]; simpl; [discriminate|].
  destruct (String.eqb k k') eqn:E.
  - intros H. injection H as ->. apply String.eqb_eq in E. now subst.
  - intros H. now rewrite IH.
Qed.

Lemma replace_at_twice (i : nat) (x : json) (l : list json) :
  replace_at i x (replace_at i x l) = replace_at i x l.
Proof.
  revert i. induction l as [|z l IH]; intros [|i]; simpl; try reflexivity.
  now rewrite IH.
Qed.

Lemma replace_at_nth (i : nat) (l : list json) :
  replace_at i (nth i l JNull) l = l.
Proof.
  revert i. induction l as [|z l IH]; intros [|i]; simpl; try reflexivity.
  now rewrite IH.
Qed.

Lemma patch_field_fixed (k : string) (body o : obj) :
  (forall v, lookup k body = Some v -> truthy v = true -> lookup k o = Some v) ->
  patch_field k body (JObj o) = JObj o.
Proof.
  intros H. unfold patch_field.
  destruct (lookup k body) as [v|]; [|reflexivity].
  destruct (truthy v) eqn:T; [|reflexivity].
  simpl. now rewrite (set_prop_same k v o (H v eq_refl T)).
Qed.

(** The record after the three guarded assignments holds every applicable
    value of the body. *)
Lemma patched_record_holds (body o : obj) :
  exists o3,
    patch_field "values" body (patch_field "coins" body (patch_field "analysis" body (JObj o)))
    = JObj o3
    /\ forall k v, whitelisted k = true -> lookup k body = Some v -> truthy v = true ->
                   lookup k o3 = Some v.
Proof.
  destruct (patch_field_obj "analysis" body o) as [o1 E1].
  destruct (patch_field_obj "coins" body o1) as [o2 E2].
  destruct (patch_field_obj "values" body o2) as [o3 E3].
  exists o3. rewrite E1, E2, E3. split; [reflexivity|].
  intros k v Hk Hl Ht.
  assert (G : get_prop (JObj o3) k = Ok (Some v)).
  { rewrite <- E3, <- E2, <- E1. unfold whitelisted in Hk.
    destruct (String.eqb_spec k "analysis") as [->|_].
    { rewrite !patch_field_other by discriminate. now apply patch_field_same. }
    destruct (String.eqb_spec k "coins") as [->|_].
    { rewrite patch_field_other by discriminate. rewrite E1. now apply patch_field_same. }
    destruct (String.eqb_spec k "values") as [->|_]; [|discriminate].
    rewrite E1, E2. now apply patch_field_same. }
  simpl in G. now injection G.
Qed.

(** X9.  [PATCH] is idempotent: sending the same body to the same id a
    second time answers as the first time and leaves the array, and the file,
    as the first request left them. *)
Theorem patch_idempotent (w : fs_write) (id : string) (body : obj) (st : state) :
  patch_portfolio w id body (fst (patch_portfolio w id body st))
  = patch_portfolio w id body st.
Proof.
  destruct (findIndex id (portfolios st)) as [[i|]|e] eqn:Hf.
  2,3: unfold patch_portfolio at 2 3; rewrite Hf; simpl;
       unfold patch_portfolio; now rewrite Hf.
  destruct (findIndex_some _ _ _ Hf) as [Hlt Hid].
  destruct (has_id_true _ _ Hid) as (o & Ho & _).
  destruct (patched_record_holds body o) as (o3 & E3 & Hold).
  assert (Hfix : patch_field "values" body
                   (patch_field "coins" body (patch_field "analysis" body (JObj o3)))
                 = JObj o3).
  { rewrite !patch_field_fixed; [reflexivity| | |]; intros v; now apply Hold. }
  assert (Hstep : forall f,
            patch_portfolio w id body (mkState (replace_at i (JObj o3) (portfolios st)) f)
            = patch_portfolio w id body st).
  { intros f. unfold patch_portfolio. cbn [portfolios db].
    rewrite (findIndex_replace_at id _ i (JObj o3) Hlt), Hf.
    - rewrite nth_replace_at_same by exact Hlt.
      rewrite Hfix, replace_at_twice, Ho, E3. destruct w; reflexivity.
    - rewrite <- E3, <- Ho. now rewrite !has_id_patch_field by discriminate. }
  unfold patch_portfolio at 2. rewrite Hf, Ho, E3. destruct w; simpl; apply Hstep.
Qed.

Lemma in_lookup (k : string) (v : json) (b : obj) :
  NoDup (keys b) -> In (k, v) b -> lookup k b = Some v.
Proof.
  induction b as [|[k' v'] b IH]; simpl; intros Hnd Hin; [contradiction|].
  inversion Hnd as [|? ? Hnotin Hnd']; subst.
  destruct Hin as [E|Hin].
  - injection E as -> ->. now rewrite String.eqb_refl.
  - destruct (String.eqb_spec k k') as [->|_]; [|now apply IH].
    elim Hnotin. change (In (fst (k', v)) (map fst b)). now apply in_map.
Qed.

Lemma lookup_in_keys (k : string) (o : obj) :
  In k (keys o) -> exists v, lookup k o = Some v.
Proof.
  induction o as [|[k' v'] o IH]; simpl; intros Hin; [contradiction|].
  destruct (String.eqb_spec k k') as [->|Hne]; [eauto|].
  apply IH. destruct Hin as [E|H]; [now elim Hne|exact H].
Qed.

Lemma spread_fixed (b o : obj) :
  (forall k v, In (k, v) b -> lookup k o = Some v) -> spread o b = o.
Proof.
  unfold spread. induction b as [|[k v] b IH]; simpl; intros H; [reflexivity|].
  rewrite (set_prop_same k v o) by (apply H; now left).
  apply IH. intros k' v' Hin. apply H. now right.
Qed.

Lemma spread_twice (b o : obj) : NoDup (keys b) -> spread (spread o b) b = spread o b.
Proof.
  intros Hnd. apply spread_fixed. intros k v Hin.
  apply lookup_spread_present; [exact Hnd|now apply in_lookup].
Qed.

(** X10.  [PUT] is idempotent as long as the body does not move the record to
    another id: the same body sent twice gives the reply, the array and the
    file of the first request. *)
Theorem put_idempotent (w : fs_write) (id : string) (body : obj) (st : state) :
  NoDup (keys body) ->
  lookup "id" body = None \/ lookup "id" body = Some (JStr id) ->
  put_portfolio w id body (fst (put_portfolio w id body st))
  = put_portfolio w id body st.
Proof.
  intros Hnd Hidb.
  destruct (findIndex id (portfolios st)) as [[i|]|e] eqn:Hf.
  2,3: unfold put_portfolio at 2 3; rewrite Hf; simpl;
       unfold put_portfolio; now rewrite Hf.
  destruct (findIndex_some _ _ _ Hf) as [Hlt Hid].
  destruct (has_id_true _ _ Hid) as (o & Ho & Hoid).
  assert (Hkeep : has_id id (JObj (spread o body)) = has_id id (nth i (portfolios st) JNull)).
  { rewrite Hid. apply has_id_of_prop. simpl. destruct Hidb as [Hn|Hs].
    - rewrite lookup_spread_absent; [now rewrite Hoid|].
      intros Hin. apply lookup_in_keys in Hin as [v Hv]. congruence.
    - now rewrite (lookup_spread_present "id" (JStr id)). }
  assert (Hstep : forall f,
            put_portfolio w id body (mkState (replace_at i (JObj (spread o body)) (portfolios st)) f)
            = put_portfolio w id body st).
  { intros f. unfold put_portfolio. cbn [portfolios db].
    rewrite (findIndex_replace_at id _ i _ Hlt Hkeep), Hf.
    rewrite nth_replace_at_same by exact Hlt.
    rewrite Ho. simpl own_props.
    rewrite (spread_twice body o Hnd), replace_at_twice. destruct w; reflexivity. }
  unfold put_portfolio at 2. rewrite Hf, Ho. simpl own_props. destruct w; simpl; apply Hstep.
Qed.

Lemma put_idempotent_witness :
  let st := mkState [JObj [("id", JStr "abc"); ("coins", JArr [JStr "BTC"])]] None in
  let body := [("coins", JArr [JStr "ETH"]); ("name", JStr "main")] in
  put_portfolio WriteOk "abc" body (fst (put_portfolio WriteOk "abc" body st))
  = put_portfolio WriteOk "abc" body st.
Proof.
  apply (put_idempotent WriteOk "abc" [("coins", JArr [JStr "ETH"]); ("name", JStr "main")]
           (mkState [JObj [("id", JStr "abc"); ("coins", JArr [JStr "BTC"])]] None)).
  - repeat constructor; simpl; intuition discriminate.
  - left. reflexivity.
Defined.

(** X11.  An update that carries nothing to apply changes no record, and yet
    is answered as a success with the record as it is: a [PUT] whose body is
    an empty object or an empty array, and a [PATCH] whose body is an object
    with none of the three keys under a truthy value.  A [PATCH] whose body is
    an array is no such update, whatever the array holds: [values] of the
    record becomes the method [values] of arrays. *)
Theorem update_without_effect
  (w : fs_write) (id : string) (body : obj) (items : list json) (st : state) (i : nat) :
  findIndex id (portfolios st) = Ok (Some i) ->
  (forall empty, empty = JObj [] \/ empty = JArr [] ->
     portfolios (fst (put_request w id empty st)) = portfolios st
     /\ snd (put_request WriteOk id empty st)
        = Reply 200 (updated_body (nth i (portfolios st) JNull)))
  /\ ((forall k v, whitelisted k = true -> lookup k body = Some v -> truthy v = false) ->
      portfolios (fst (patch_request w id (JObj body) st)) = portfolios st
      /\ snd (patch_request WriteOk id (JObj body) st)
         = Reply 200 (updated_body (nth i (portfolios st) JNull)))
  /\ get_prop (nth i (portfolios (fst (patch_request w id (JArr items) st))) JNull) "values"
     = Ok (Some (JFun "values")).
Proof.
  intros Hf.
  destruct (findIndex_some _ _ _ Hf) as [Hlt Hid].
  destruct (has_id_true _ _ Hid) as (o & Ho & _).
  split; [|split].
  - intros empty He.
    assert (Hp : own_props empty = []) by (destruct He as [->| ->]; reflexivity).
    unfold put_request. rewrite Hp.
    rewrite (put_portfolio_portfolios w id [] st i Hf).
    unfold put_portfolio. rewrite Hf. simpl. rewrite Ho. simpl.
    rewrite <- Ho, replace_at_nth. auto.
  - intros Hnone. unfold patch_request, destructured.
    assert (Hskip : forall k r, whitelisted k = true -> patch_field k body r = r).
    { intros k r Hk. unfold patch_field.
      destruct (lookup k body) as [v|] eqn:L; [|reflexivity].
      now rewrite (Hnone k v Hk L). }
    rewrite (patch_portfolio_portfolios w id body st i Hf).
    unfold patch_portfolio. rewrite Hf. simpl.
    rewrite !Hskip by reflexivity. rewrite replace_at_nth. auto.
  - unfold patch_request, destructured.
    rewrite (patch_portfolio_portfolios w id _ st i Hf).
    rewrite nth_replace_at_same by exact Hlt.
    rewrite Ho. cbn. now rewrite lookup_set_prop_same.
Qed.

Lemma update_without_effect_witness :
  let r := JObj [("id", JStr "abc"); ("coins", JArr [JStr "BTC"])] in
  let st := mkState [r] None in
  let body := [("values", JNull); ("name", JStr "x")] in
  (forall empty, empty = JObj [] \/ empty = JArr [] ->
     portfolios (fst (put_request WriteOk "abc" empty st)) = portfolios st
     /\ snd (put_request WriteOk "abc" empty st)
        = Reply 200 (updated_body (nth 0 (portfolios st) JNull)))
  /\ ((forall k v, whitelisted k = true -> lookup k body = Some v -> truthy v = false) ->
      portfolios (fst (patch_request WriteOk "abc" (JObj body) st)) = portfolios st
      /\ snd (patch_request WriteOk "abc" (JObj body) st)
         = Reply 200 (updated_body (nth 0 (portfolios st) JNull)))
  /\ get_prop (nth 0 (portfolios (fst (patch_request WriteOk "abc" (JArr [JNull]) st))) JNull)
       "values"
     = Ok (Some (JFun "values")).
Proof.
  apply (update_without_effect WriteOk "abc" [("values", JNull); ("name", JStr "x")] [JNull]
           (mkState [JObj [("id", JStr "abc"); ("coins", JArr [JStr "BTC"])]] None) 0).
  reflexivity.
Defined.


(** ** The file as a mirror of the array *)


























(** ** Arrays without [null] entries *)





(** * Further properties of the prediction routes *)

(** X15.  [POST /api/predictions/:coinId] always answers a body that is not
    [null], and it answers 400 exactly when [historical_data] is missing or
    is no array; an empty array is not rejected. *)
Theorem post_predictions_validation (flask : json -> res json) (coinId : string) (body : json) :
  body <> JNull ->
  (exists s b, post_predictions flask coinId body = Reply s b)
  /\ (post_predictions flask coinId body
        = Reply 400 (error_body "Invalid or missing historical_data")
      <-> forall l, get_prop body "historical_data" <> Ok (Some (JArr l))).
Proof.
  intros Hb. split; [|now apply post_predictions_400].
  unfold post_predictions.
  destruct (get_prop body "historical_data") as [[h|]|e] eqn:G.
  - destruct (negb (truthy h) || negb (isArray h)); [eauto|].
    destruct (flask _) as [d|e]; [destruct (has_slice d)|]; eauto.
  - eauto.
  - destruct body; simpl in G; try discriminate. now elim Hb.
Qed.

Lemma post_predictions_validation_witness :
  (exists s b,
      post_predictions (fun _ => Ok (JArr [])) "btc" (JObj [("historical_data", JArr [])])
      = Reply s b)
  /\ (post_predictions (fun _ => Ok (JArr [])) "btc" (JObj [("historical_data", JArr [])])
        = Reply 400 (error_body "Invalid or missing historical_data")
      <-> forall l, get_prop (JObj [("historical_data", JArr [])]) "historical_data"
                    <> Ok (Some (JArr l))).
Proof.
  apply (post_predictions_validation (fun _ => Ok (JArr [])) "btc"
           (JObj [("historical_data", JArr [])])).
  discriminate.
Defined.

Section Routes.

Variable StringToNumber : string -> option number.
Variable ArrayToString : list json -> string.
Variable market : string -> res json.
Variable flask : json -> res json.
Variable api_key : option string.

(** X16.  [GET /api/predictions/:coinId] has two outcomes only: a 200 with
    the body of the prediction service, when the history was fetched, the
    service answered and its body is an array or a string; and otherwise one
    and the same 500, which tells nothing of what failed. *)
Theorem get_predictions_outcomes (coinId : string) :
  let reply := get_predictions StringToNumber ArrayToString market flask api_key coinId in
  (exists pts data,
      fetchHistoricalData StringToNumber ArrayToString market api_key coinId = Ok pts
      /\ flask (JObj [("historical_data", JArr (map point_json pts))]) = Ok data
      /\ has_slice data = true
      /\ reply = Reply 200 data)
  \/ reply = Reply 500 (error_body "Failed to fetch predictions").
Proof.
  cbv zeta. unfold get_predictions.
  destruct (fetchHistoricalData _ _ _ _ _) as [pts|e]; [|now right].
  destruct (flask _) as [data|e] eqn:F; [|now right].
  destruct (has_slice data) eqn:S; [|now right].
  left. exists pts, data. auto.
Qed.

(** X17.  Once the history is fetched, the [GET] route succeeds exactly when
    a [POST] of that history would, and with the same body. *)
Theorem get_predictions_as_post (coinId : string) (pts : list point) (data : json) :
  fetchHistoricalData StringToNumber ArrayToString market api_key coinId = Ok pts ->
  get_predictions StringToNumber ArrayToString market flask api_key coinId = Reply 200 data
  <-> post_predictions flask coinId (JObj [("historical_data", JArr (map point_json pts))])
      = Reply 200 data.
Proof.
  intros Hf. unfold get_predictions, post_predictions. rewrite Hf. simpl.
  destruct (flask _) as [d|e]; [|split; discriminate].
  destruct (has_slice d); [reflexivity|split; discriminate].
Qed.

(** X18.  [fetchHistoricalData] gives all or nothing.  With the array
    [Data.Data] in the response, it returns one point for each raw point, in
    the order of the response, exactly when every raw point converts; and it
    throws exactly the error of the first raw point that does not. *)
Theorem fetchHistoricalData_all_or_nothing (coinId : string) (data : json) (items : list json) :
  market (histoday_url api_key coinId) = Ok data ->
  raw_data data = Ok (Some (JArr items)) ->
  let fetch := fetchHistoricalData StringToNumber ArrayToString market api_key coinId in
  (forall pts,
      fetch = Ok pts
      <-> Forall2 (fun item p => format_item StringToNumber ArrayToString item = Ok p) items pts)
  /\ (forall e,
        fetch = Throw e
        <-> exists l1 x l2,
              items = l1 ++ x :: l2
              /\ Forall (fun item =>
                           exists p, format_item StringToNumber ArrayToString item = Ok p) l1
              /\ format_item StringToNumber ArrayToString x = Throw e).
Proof.
  intros Hm Hr fetch. subst fetch.
  assert (E : fetchHistoricalData StringToNumber ArrayToString market api_key coinId
              = map_res StringToNumber ArrayToString items).
  { unfold fetchHistoricalData. rewrite Hm. simpl. unfold raw_data in Hr.
    destruct (get_prop data "Data") as [d|e]; simpl in *; [|discriminate].
    now rewrite Hr. }
  rewrite E. split.
  - intros pts. apply map_res_ok.
  - intros e. apply map_res_first_failure.
Qed.

End Routes.

Lemma get_predictions_as_post_witness :
  let item := JObj [("time", JNum (mkNum false "1700000000" ""));
                    ("close", JNum (mkNum false "35000" "5"))] in
  let market := fun _ : string => Ok (histoday_response [item]) in
  let flask := fun _ : json => Ok (JArr [JNum (mkNum false "1" "")]) in
  get_predictions (fun _ => None) (fun _ => "") market flask None "btc"
  = Reply 200 (JArr [JNum (mkNum false "1" "")])
  <-> post_predictions flask "btc"
        (JObj [("historical_data",
                JArr (map point_json
                        [mkPoint "2023-11-14" (Some (JNum (mkNum false "35000" "5")))]))])
      = Reply 200 (JArr [JNum (mkNum false "1" "")]).
Proof.
  cbv zeta.
  apply (get_predictions_as_post (fun _ => None) (fun _ => "")
           (fun _ => Ok (histoday_response
                           [JObj [("time", JNum (mkNum false "1700000000" ""));
                                  ("close", JNum (mkNum false "35000" "5"))]]))
           (fun _ => Ok (JArr [JNum (mkNum false "1" "")])) None "btc").
  vm_compute. reflexivity.
Defined.

Lemma fetchHistoricalData_all_or_nothing_witness :
  let bad := JObj [("close", JNum (mkNum false "1" ""))] in
  let market := fun _ : string => Ok (histoday_response [JNull; bad]) in
  fetchHistoricalData (fun _ => None) (fun _ => "") market None "btc" = Throw TypeError.
Proof.
  cbv zeta.
  apply (fetchHistoricalData_all_or_nothing (fun _ => None) (fun _ => "")
           (fun _ => Ok (histoday_response [JNull; JObj [("close", JNum (mkNum false "1" ""))]]))
           None "btc"
           (histoday_response [JNull; JObj [("close", JNum (mkNum false "1" ""))]])
           [JNull; JObj [("close", JNum (mkNum false "1" ""))]] eq_refl eq_refl).
  exists [], JNull, [JObj [("close", JNum (mkNum false "1" ""))]].
  repeat split. constructor.
Defined.


(** ** The day a point is filed under *)

Section Days.
Import Dates.
Local Open Scope Z_scope.

Lemma digit_inj (a b : Z) : digit a = digit b -> a mod 10 = b mod 10.
Proof.
  unfold digit. intros H.
  assert (Ha : 0 <= a mod 10 < 10) by (apply Z.mod_pos_bound; lia).
  assert (Hb : 0 <= b mod 10 < 10) by (apply Z.mod_pos_bound; lia).
  apply (f_equal N_of_ascii) in H.
  rewrite !N_ascii_embedding in H by lia.
  apply Z2N.inj in H; lia.
Qed.

Lemma pad4_inj (a b : Z) : 0 <= a <= 9999 -> 0 <= b <= 9999 -> pad4 a = pad4 b -> a = b.
Proof.
  intros Ha Hb H. unfold pad4 in H. injection H as H3 H2 H1 H0.
  apply digit_inj in H3, H2, H1, H0.
  Z.div_mod_to_equations. lia.
Qed.

Lemma pad2_inj (a b : Z) : 0 <= a <= 99 -> 0 <= b <= 99 -> pad2 a = pad2 b -> a = b.
Proof.
  intros Ha Hb H. unfold pad2 in H. injection H as H1 H0.
  apply digit_inj in H1, H0.
  Z.div_mod_to_equations. lia.
Qed.

Lemma calendar_day_same_day (t1 t2 : Z) :
  four_digit_year t1 = true -> four_digit_year t2 = true ->
  (calendar_day t1 = calendar_day t2 <-> Day t1 = Day t2).
Proof.
  intros H1 H2. split.
  - intros E.
    pose proof (four_digit_year_range t1 H1) as R1.
    pose proof (four_digit_year_range t2 H2) as R2.
    pose proof (civil_spec t1) as S1. pose proof (civil_spec t2) as S2.
    unfold calendar_day in E.
    assert (Y1 : fst (fst (civil t1)) = YearFromDay (Day t1)) by reflexivity.
    assert (Y2 : fst (fst (civil t2)) = YearFromDay (Day t2)) by reflexivity.
    destruct (civil t1) as [[y1 m1] d1]. destruct (civil t2) as [[y2 m2] d2].
    simpl in Y1, Y2. subst y1 y2.
    apply (f_equal list_ascii_of_string) in E.
    rewrite !list_ascii_of_string_of_list_ascii in E.
    destruct S1 as (_ & Hm1 & Hd1 & E1). destruct S2 as (_ & Hm2 & Hd2 & E2).
    assert (Ey : pad4 (YearFromDay (Day t1)) = pad4 (YearFromDay (Day t2))
                 /\ pad2 m1 = pad2 m2 /\ pad2 d1 = pad2 d2).
    { unfold pad4, pad2 in *. simpl in E. injection E as -> -> -> -> -> -> -> ->. auto. }
    destruct Ey as (Ey & Em & Ed).
    apply pad4_inj in Ey; [|lia|lia]. apply pad2_inj in Em; [|lia|lia].
    apply pad2_inj in Ed; [|lia|lia].
    rewrite <- E1, <- E2, Ey, Em, Ed. reflexivity.
  - intros E. unfold calendar_day, civil. now rewrite E.
Qed.

End Days.

Lemma dated_point_years (item : json) (t : Z) (c : option json) :
  dated_point item = Some (t, c) -> four_digit_years t = true.
Proof.
  unfold dated_point. destruct (raw_point item) as [[n c']|]; [|discriminate].
  destruct (seconds n) as [t'|]; [|discriminate].
  destruct (four_digit_years t') eqn:Y; [|discriminate].
  intros H. now injection H as <- _.
Qed.

(** X19.  Two raw points whose [time] is a whole number of seconds dated
    within the years 0000 to 9999 are filed under the same [ds] exactly when
    the two time stamps fall on the same UTC day: the time of day is dropped
    and no two days share a string. *)
Theorem same_ds_same_day
  (StringToNumber : string -> option number) (ArrayToString : list json -> string)
  (item1 item2 : json) (t1 t2 : Z) (c1 c2 : option json) (p1 p2 : point) :
  dated_point item1 = Some (t1, c1) ->
  dated_point item2 = Some (t2, c2) ->
  format_item StringToNumber ArrayToString item1 = Ok p1 ->
  format_item StringToNumber ArrayToString item2 = Ok p2 ->
  (ds p1 = ds p2 <-> (t1 / 86400 = t2 / 86400)%Z).
Proof.
  intros D1 D2 F1 F2.
  rewrite (format_item_dated StringToNumber ArrayToString _ _ _ D1) in F1.
  rewrite (format_item_dated StringToNumber ArrayToString _ _ _ D2) in F2.
  injection F1 as <-. injection F2 as <-. cbn [ds].
  destruct (four_digit_years_millis t1 (dated_point_years _ _ _ D1)) as [_ Y1].
  destruct (four_digit_years_millis t2 (dated_point_years _ _ _ D2)) as [_ Y2].
  rewrite (calendar_day_same_day _ _ Y1 Y2).
  unfold Dates.Day, Dates.msPerDay.
  change 86400000%Z with (1000 * 86400)%Z.
  now rewrite !Z.div_mul_cancel_l by lia.
Qed.

Lemma same_ds_same_day_witness :
  ds (mkPoint "2023-11-14" None) = ds (mkPoint "2023-11-14" (Some JNull))
  <-> (1700000000 / 86400 = 1700006399 / 86400)%Z.
Proof.
  apply (same_ds_same_day (fun _ => None) (fun _ => "")
           (JObj [("time", JNum (mkNum false "1700000000" ""))])
           (JObj [("time", JNum (mkNum false "1700006399" "")); ("close", JNull)])
           1700000000%Z 1700006399%Z None (Some JNull));
    vm_compute; reflexivity.
Defined.

(** * Further properties of startup and of the two kinds of update *)

(** X20.  What startup leaves in [portfolios] is an array, with one
    exception: a file whose JSON is an object with a truthy value under
    [portfolios] that is no array.  That value gets past [|| []] and becomes
    the store. *)
Theorem startup_array_unless (file : option text) :
  (exists l, startup file = JArr l)
  \/ (exists data o p,
        file = Some data /\ JSON_parse data = Some (JObj o)
        /\ lookup "portfolios" o = Some p /\ truthy p = true /\ isArray p = false
        /\ startup file = p).
Proof.
  unfold startup, loadPortfolios.
  destruct file as [data|]; [|left; eexists; reflexivity].
  destruct (JSON_parse data) as [parsed|] eqn:P; [|left; eexists; reflexivity].
  destruct parsed as [| | | | |o|]; simpl; try (left; eexists; reflexivity).
  destruct (lookup "portfolios" o) as [p|] eqn:L; [|left; eexists; reflexivity].
  destruct (truthy p) eqn:T; [|left; eexists; reflexivity].
  destruct (isArray p) eqn:A.
  - left. destruct p; try discriminate. eexists; reflexivity.
  - right. exists data, o, p. repeat split; auto.
Qed.

(** X21.  For a body that is an object with keys among [analysis], [coins]
    and [values] only, each once and with a truthy value, [PATCH] and [PUT]
    give the record the same fields; only the order of keys that are new to
    the record can differ. *)
Theorem patch_agrees_with_put
  (w : fs_write) (id : string) (body : obj) (st : state) (i : nat) (k : string) :
  findIndex id (portfolios st) = Ok (Some i) ->
  NoDup (keys body) ->
  (forall k' v, lookup k' body = Some v -> whitelisted k' = true /\ truthy v = true) ->
  get_prop (nth i (portfolios (fst (patch_request w id (JObj body) st))) JNull) k
  = get_prop (nth i (portfolios (fst (put_request w id (JObj body) st))) JNull) k.
Proof.
  intros Hf Hnd Hb. unfold patch_request, put_request, destructured, own_props.
  rewrite (patch_portfolio_portfolios w id body st i Hf).
  rewrite (put_portfolio_portfolios w id body st i Hf).
  destruct (findIndex_some _ _ _ Hf) as [Hlt Hid].
  rewrite !nth_replace_at_same by exact Hlt.
  destruct (has_id_true _ _ Hid) as (o & -> & _).
  destruct (patched_record_holds body o) as (o3 & E3 & Hold).
  destruct (lookup k body) as [v|] eqn:L.
  - destruct (Hb k v L) as [Hk Ht].
    rewrite E3. simpl. rewrite (Hold k v Hk L Ht).
    now rewrite (lookup_spread_present k v).
  - assert (Hskip : forall r, patch_field k body r = r)
      by (intros r; unfold patch_field; now rewrite L).
    assert (Hn : ~ In k (keys body)).
    { intros Hin. apply lookup_in_keys in Hin as [v Hv]. congruence. }
    simpl. rewrite (lookup_spread_absent k body o Hn).
    clear E3 Hold.
    destruct (String.eqb_spec k "analysis") as [->|Na].
    { rewrite !patch_field_other by discriminate. now rewrite Hskip. }
    destruct (String.eqb_spec k "coins") as [->|Nc].
    { rewrite patch_field_other by discriminate. rewrite Hskip.
      now rewrite patch_field_other by discriminate. }
    destruct (String.eqb_spec k "values") as [->|Nv].
    { rewrite Hskip. now rewrite !patch_field_other by discriminate. }
    now rewrite !patch_field_other by assumption.
Qed.

Lemma patch_agrees_with_put_witness :
  let st := mkState [JObj [("id", JStr "abc"); ("coins", JArr [JStr "BTC"])]] None in
  let body := [("values", JArr [JNum (mkNum false "100" "")]); ("coins", JArr [JStr "ETH"])] in
  get_prop (nth 0 (portfolios (fst (patch_request WriteOk "abc" (JObj body) st))) JNull) "values"
  = get_prop (nth 0 (portfolios (fst (put_request WriteOk "abc" (JObj body) st))) JNull) "values".
Proof.
  apply (patch_agrees_with_put WriteOk "abc"
           [("values", JArr [JNum (mkNum false "100" "")]); ("coins", JArr [JStr "ETH"])]
           (mkState [JObj [("id", JStr "abc"); ("coins", JArr [JStr "BTC"])]] None) 0 "values").
  - reflexivity.
  - repeat constructor; simpl; intuition discriminate.
  - intros k' v. simpl.
    destruct (String.eqb_spec k' "values") as [->|_].
    + intros H. injection H as <-. split; reflexivity.
    + destruct (String.eqb_spec k' "coins") as [->|_]; [|discriminate].
      intros H. injection H as <-. split; reflexivity.
Defined.
